(** * SUTPlan: week/date mapping, week labels, day grouping, navigation state

    A shallow embedding of the TypeScript front end of SUTPlan
    ([lib/weeks.ts], [App.tsx], [types.ts], [hooks/useSchedule.ts] and the
    components [WeekNavigator], [DaySection] and [ClassCard]) together with
    the properties its specification states about it and further properties
    of the code.

    Modelling conventions.
    - A JavaScript [number] that holds an integer is a [Z]; [NaN] and
      [undefined] are separate constructors of [value] where the source can
      produce them (parsing of text, destructuring of a short array).
      Integer arithmetic is exact: the rounding of numbers beyond 2^53 and
      the end of the range of [Date] (8.64e15 ms either side of the epoch,
      over ten million weeks from the anchor) lie outside the model.
    - A [Date] is its time value: milliseconds since 1970-01-01T00:00:00Z.
      The Invalid Date built from components that are not numbers is [None]
      of [option Date].
    - Local time depends on the host time zone, which is a parameter
      ([TimeZone]); [Europe_Warsaw] is the zone the application is deployed in.
    - Strings are byte strings holding UTF-8; [substring], which counts
      UTF-16 code units, counts them over the UTF-8 characters.
    - An object literal used as a table is the finite map of its own
      properties; reading it ([get]) also finds the members inherited from
      [Object.prototype]. *)

From Stdlib Require Import ZArith Lia List String Ascii Bool DecimalString.
From Stdlib Require Import Sorted Permutation.
From Stdlib Require DecimalZ DecimalPos.
From stdpp Require Import base strings gmap.

Open Scope Z_scope.

(** ** ECMAScript built-ins used by the source *)

Module JS.

(** *** Numbers, [NaN] and [undefined] *)

Inductive value : Type :=
| Undefined
| NaN
| Num (z : Z).

Definition isNaN (v : value) : bool :=
  match v with
  | Num _ => false
  | _ => true
  end.

(** [a === b] on values of this fragment: [NaN] differs from itself. *)
Definition strict_eq (a b : value) : bool :=
  match a, b with
  | Undefined, Undefined => true
  | Num x, Num y => x =? y
  | _, _ => false
  end.

(** [v - k] for a number [k]; [undefined - k] is [NaN]. *)
Definition minus (v : value) (k : Z) : value :=
  match v with
  | Num z => Num (z - k)
  | _ => NaN
  end.

(** [String(n)] / template-literal conversion of an integer. *)
Definition String_of_Z (n : Z) : string :=
  NilZero.string_of_int (Z.to_int n).

Definition String_of_value (v : value) : string :=
  match v with
  | Undefined => "undefined"
  | NaN => "NaN"
  | Num z => String_of_Z z
  end.

(** *** Characters *)

Definition code (c : ascii) : Z := Z.of_N (N_of_ascii c).

Definition digit_of (c : ascii) : option Z :=
  let n := code c in
  if (48 <=? n) && (n <=? 57) then Some (n - 48) else None.

(** One-byte white space of [StrWhiteSpaceChar]: TAB, LF, VT, FF, CR, SP. *)
Definition is_ws1 (c : ascii) : bool :=
  let n := code c in
  ((9 <=? n) && (n <=? 13)) || (n =? 32).

(** U+00A0 in UTF-8. *)
Definition is_ws2 (c1 c2 : ascii) : bool :=
  (code c1 =? 194) && (code c2 =? 160).

(** Three-byte white space in UTF-8: U+1680, U+2000..U+200A, U+2028, U+2029,
    U+202F, U+205F, U+3000, U+FEFF. *)
Definition is_ws3 (c1 c2 c3 : ascii) : bool :=
  let a := code c1 in
  let b := code c2 in
  let c := code c3 in
  ((a =? 225) && (b =? 154) && (c =? 128))
  || ((a =? 226) && (b =? 128)
      && (((128 <=? c) && (c <=? 138)) || (c =? 168) || (c =? 169) || (c =? 175)))
  || ((a =? 226) && (b =? 129) && (c =? 159))
  || ((a =? 227) && (b =? 128) && (c =? 128))
  || ((a =? 239) && (b =? 187) && (c =? 191)).

(** Drops leading white space. *)
Fixpoint skip_ws (s : string) : string :=
  match s with
  | EmptyString => EmptyString
  | String c1 r1 =>
      if is_ws1 c1 then skip_ws r1
      else
        match r1 with
        | EmptyString => s
        | String c2 r2 =>
            if is_ws2 c1 c2 then skip_ws r2
            else
              match r2 with
              | EmptyString => s
              | String c3 r3 => if is_ws3 c1 c2 c3 then skip_ws r3 else s
              end
        end
  end.

(** *** Decimal digits *)

(** Reads the longest prefix of decimal digits, accumulating its value;
    returns the value, the number of digits read and the rest. *)
Fixpoint read_digits (acc : Z) (n : nat) (s : string) : Z * nat * string :=
  match s with
  | EmptyString => (acc, n, s)
  | String c r =>
      match digit_of c with
      | Some d => read_digits (10 * acc + d) (S n) r
      | None => (acc, n, s)
      end
  end.

(** An optional sign: its factor and the rest. *)
Definition read_sign (s : string) : Z * string :=
  match s with
  | String c r =>
      if code c =? 45 then (-1, r)
      else if code c =? 43 then (1, r)
      else (1, s)
  | EmptyString => (1, s)
  end.

(** [parseInt(s, 10)]: leading white space, an optional sign, then the longest
    run of decimal digits; [NaN] when there is no digit. *)
Definition parseInt (s : string) : value :=
  let '(sg, r) := read_sign (skip_ws s) in
  let '(v, n, _) := read_digits 0 0 r in
  match n with
  | O => NaN
  | S _ => Num (sg * v)
  end.

(** [Number(s)] on the integer literals: white space around an optional sign
    and decimal digits; the empty (or all-blank) string is [0].  Literals with
    a fraction, an exponent or a radix prefix, and [Infinity], denote numbers
    outside this integer model and are read as [NaN]. *)
Definition Number (s : string) : value :=
  let s1 := skip_ws s in
  match s1 with
  | EmptyString => Num 0
  | _ =>
      let '(sg, r) := read_sign s1 in
      let '(v, n, rest) := read_digits 0 0 r in
      match n, skip_ws rest with
      | S _, EmptyString => Num (sg * v)
      | _, _ => NaN
      end
  end.

(** *** Strings and arrays *)

(** [s.split(sep)] for a one-character separator. *)
Fixpoint split (sep : ascii) (s : string) : list string :=
  match s with
  | EmptyString => [EmptyString]
  | String c r =>
      if Ascii.eqb c sep then EmptyString :: split sep r
      else
        match split sep r with
        | h :: t => String c h :: t
        | [] => [String c EmptyString]
        end
  end.

(** [a[i]] where a missing element is [undefined]. *)
Definition index (a : list value) (i : nat) : value :=
  nth i a Undefined.

(** The surrogate that opens the pair of a character of four bytes
    [b1 b2 b3 b4], in the three-byte form of generalized UTF-8. *)
Definition high_surrogate (b1 b2 b3 b4 : ascii) : string :=
  let cp := (code b1 mod 8) * 262144 + (code b2 mod 64) * 4096
            + (code b3 mod 64) * 64 + code b4 mod 64 in
  let hi := 55296 + (cp - 65536) / 1024 in
  String (ascii_of_N 237)
    (String (ascii_of_N (Z.to_N (128 + (hi / 64) mod 64)))
       (String (ascii_of_N (Z.to_N (128 + hi mod 64))) EmptyString)).

(** [s.substring(0, n)]: the first [n] UTF-16 code units of [s].  In UTF-8 a
    character of one, two or three bytes is one code unit and a character of
    four bytes (beyond U+FFFF) is a surrogate pair of two; a cut inside a
    pair keeps the high surrogate alone. *)
Fixpoint substring_from_0 (n : nat) (s : string) {struct s} : string :=
  match n, s with
  | O, _ => EmptyString
  | _, EmptyString => EmptyString
  | S n', String b1 r1 =>
      if code b1 <? 192 then String b1 (substring_from_0 n' r1)
      else
        match r1 with
        | EmptyString => s
        | String b2 r2 =>
            if code b1 <? 224 then String b1 (String b2 (substring_from_0 n' r2))
            else
              match r2 with
              | EmptyString => s
              | String b3 r3 =>
                  if code b1 <? 240
                  then String b1 (String b2 (String b3 (substring_from_0 n' r3)))
                  else
                    match r3 with
                    | EmptyString => s
                    | String b4 r4 =>
                        match n' with
                        | O => high_surrogate b1 b2 b3 b4
                        | S n'' =>
                            String b1 (String b2 (String b3 (String b4
                              (substring_from_0 n'' r4))))
                        end
                    end
              end
        end
  end.

(** *** Objects *)

(** The members an object literal inherits from [Object.prototype]; each of
    them is a function or an object, none is [undefined] or [null]. *)
Definition Object_prototype : list string :=
  ["constructor"; "__defineGetter__"; "__defineSetter__"; "hasOwnProperty";
   "__lookupGetter__"; "__lookupSetter__"; "isPrototypeOf";
   "propertyIsEnumerable"; "toString"; "valueOf"; "__proto__";
   "toLocaleString"]%string.

(** What reading a property gives: a value of the object's own kind, or the
    member [name] of [Object.prototype]. *)
Inductive property (V : Type) : Type :=
| Value (v : V)
| Inherited (name : string).

Arguments Value {V} v.
Arguments Inherited {V} name.

(** [o[k]] for an object literal [o] of own properties [own]: the own
    property, else the inherited member, else [undefined], which is [None]. *)
Definition inherits (k : string) : bool :=
  existsb (String.eqb k) Object_prototype.

Definition get {V : Type} (own : gmap string V) (k : string) : option (property V) :=
  match own !! k with
  | Some v => Some (Value v)
  | None => if inherits k then Some (Inherited k) else None
  end.

(** The default comparison of [Array.prototype.sort()]: code-unit order of
    the strings, which on UTF-8 bytes is the order of the bytes (the two
    orders part only between characters beyond U+FFFF and those from U+E000
    to U+FFFF). *)
Definition SortCompare (x y : string) : Z :=
  match String.compare x y with
  | Lt => -1
  | Eq => 0
  | Gt => 1
  end.

(** [Array.prototype.sort(cmp)].  The sort is stable; for a consistent
    comparator its result is the one of this insertion sort. *)
Fixpoint sort_insert {A} (cmp : A -> A -> Z) (x : A) (l : list A) : list A :=
  match l with
  | [] => [x]
  | y :: l' => if cmp x y <=? 0 then x :: l else y :: sort_insert cmp x l'
  end.

Fixpoint sort {A} (cmp : A -> A -> Z) (l : list A) : list A :=
  match l with
  | [] => []
  | x :: l' => sort_insert cmp x (sort cmp l')
  end.

(** [new Set(l)] followed by [Array.from]: the distinct elements in the order
    of their first occurrence. *)
Definition Set_add (s : list string) (x : string) : list string :=
  if existsb (String.eqb x) s then s else s ++ [x].

Definition Set_from (l : list string) : list string :=
  fold_left Set_add l [].

(** *** Calendar arithmetic of [Date] *)

Definition msPerDay : Z := 86400000.

Definition Day (t : Z) : Z := t / msPerDay.

(** Day number (days since 1970-01-01) of the civil date [y]-[m]-[d] of the
    proleptic Gregorian calendar, [m] in 1..12. *)
Definition days_from_civil (y m d : Z) : Z :=
  let y' := if m <=? 2 then y - 1 else y in
  let era := y' / 400 in
  let yoe := y' - era * 400 in
  let mp := if 2 <? m then m - 3 else m + 9 in
  let doy := (153 * mp + 2) / 5 + d - 1 in
  let doe := yoe * 365 + yoe / 4 - yoe / 100 + doy in
  era * 146097 + doe - 719468.

(** The civil date of a day number. *)
Definition civil_from_days (z : Z) : Z * Z * Z :=
  let z' := z + 719468 in
  let era := z' / 146097 in
  let doe := z' - era * 146097 in
  let yoe := (doe - doe / 1460 + doe / 36524 - doe / 146096) / 365 in
  let doy := doe - (365 * yoe + yoe / 4 - yoe / 100) in
  let mp := (5 * doy + 2) / 153 in
  let d := doy - (153 * mp + 2) / 5 + 1 in
  let m := if mp <? 10 then mp + 3 else mp - 9 in
  let y := yoe + era * 400 in
  (if m <=? 2 then y + 1 else y, m, d).

(** [MakeDay(year, month, date)]: [month] is zero-based and may lie outside
    0..11, [date] may lie outside the month; both carry over. *)
Definition MakeDay (year month date : Z) : Z :=
  days_from_civil (year + month / 12) (month mod 12 + 1) 1 + date - 1.

Definition MakeDate (day time : Z) : Z := day * msPerDay + time.

Definition YearFromTime (t : Z) : Z := fst (fst (civil_from_days (Day t))).
Definition MonthFromTime (t : Z) : Z := snd (fst (civil_from_days (Day t))) - 1.
Definition DateFromTime (t : Z) : Z := snd (civil_from_days (Day t)).

(** 0 is Sunday. *)
Definition WeekDay (t : Z) : Z := (Day t + 4) mod 7.

(** *** Time zones *)

(** The host's time zone: the offset of local time from UTC, in
    milliseconds, at a UTC instant and for a local time value (where a local
    time is skipped or repeated by a transition, the offset before the
    transition). *)
Record TimeZone : Type := {
  offset_at_utc : Z -> Z;
  offset_at_local : Z -> Z
}.

Definition LocalTime (tz : TimeZone) (t : Z) : Z := t + offset_at_utc tz t.
Definition UTC (tz : TimeZone) (t : Z) : Z := t - offset_at_local tz t.

(** A [Date] is its time value. *)
Definition Date : Type := Z.

Definition getTime (d : Date) : Z := d.
Definition getFullYear (tz : TimeZone) (d : Date) : Z := YearFromTime (LocalTime tz d).
Definition getMonth (tz : TimeZone) (d : Date) : Z := MonthFromTime (LocalTime tz d).
Definition getDate (tz : TimeZone) (d : Date) : Z := DateFromTime (LocalTime tz d).
Definition getDay (tz : TimeZone) (d : Date) : Z := WeekDay (LocalTime tz d).

(** [new Date(y, m, d)] with numeric arguments: local midnight of the day
    [MakeDay] gives; a year in 0..99 means 1900 + year. *)
Definition Date_local (tz : TimeZone) (y m d : Z) : Date :=
  let yr := if (0 <=? y) && (y <=? 99) then 1900 + y else y in
  UTC tz (MakeDate (MakeDay yr m d) 0).

(** [new Date(y, m, d)] on values: an argument that is not a number gives
    the Invalid Date. *)
Definition Date_of_values (tz : TimeZone) (y m d : value) : option Date :=
  match y, m, d with
  | Num y, Num m, Num d => Some (Date_local tz y m d)
  | _, _, _ => None
  end.

(** [new Date('YYYY-MM-DDT00:00:00')]: a date-time without offset is local
    time. *)
Definition Date_parse_local_midnight (tz : TimeZone) (y m d : Z) : Date :=
  UTC tz (MakeDate (days_from_civil y m d) 0).

(** Time zones with a fixed offset. *)
Definition fixed_zone (off : Z) : TimeZone :=
  {| offset_at_utc := fun _ => off; offset_at_local := fun _ => off |}.

(** Central European (Summer) Time under the rule in force in the European
    Union since 1996: summer time from the last Sunday of March, 01:00 UTC,
    to the last Sunday of October, 01:00 UTC. *)
Definition last_sunday (y m : Z) : Z :=
  let d31 := days_from_civil y m 31 in
  d31 - (d31 + 4) mod 7.

Definition msPerHour : Z := 3600000.

Definition cest_at_utc (u : Z) : bool :=
  let y := YearFromTime u in
  (last_sunday y 3 * msPerDay + msPerHour <=? u)
  && (u <? last_sunday y 10 * msPerDay + msPerHour).

Definition Europe_Warsaw : TimeZone :=
  {| offset_at_utc := fun u => if cest_at_utc u then 2 * msPerHour else msPerHour;
     offset_at_local := fun t =>
       if cest_at_utc (t - 2 * msPerHour) then 2 * msPerHour else msPerHour |}.

End JS.

Module JSMap.

(** [Map<string, V>]: iteration follows insertion order, so the map is the
    list of its entries. *)
Definition t (V : Type) : Type := list (string * V).

Definition empty {V} : t V := [].

Definition has {V} (m : t V) (k : string) : bool :=
  existsb (fun p => String.eqb (fst p) k) m.

(** [m.set(k, v)]: replaces the value of an existing key in place, appends a
    new key. *)
Definition set {V} (m : t V) (k : string) (v : V) : t V :=
  if has m k
  then map (fun p => if String.eqb (fst p) k then (fst p, v) else p) m
  else m ++ [(k, v)].

(** [m.get(k).push(x)]: the array held under [k] is extended in place. *)
Definition push {V} (m : t (list V)) (k : string) (x : V) : t (list V) :=
  map (fun p => if String.eqb (fst p) k then (fst p, snd p ++ [x]) else p) m.

Definition entries {V} (m : t V) : list (string * V) := m.

End JSMap.

(** ** [types.ts] *)

Module Types.

(** [ScheduleEvent]; a field of type [string | null] is an option. *)
Record ScheduleEvent : Type := {
  uid : string;
  start : string;
  end_ : string;
  subject : option string;
  teacher : option string;
  room : option string;
  type : option string;
  summary_raw : string
}.

(** The classification tags of [ClassType] as they appear in [type]. *)
Inductive ClassType : Type :=
| wyk | lab | proj | cw | semin | lektorat.

Definition ClassType_tag (c : ClassType) : string :=
  match c with
  | wyk => "wyk"
  | lab => "lab"
  | proj => "proj"
  | cw => "ćw"
  | semin => "semin"
  | lektorat => "lektorat"
  end.

Record ClassTypeMeta : Type := {
  label : string;
  color : string;
  textColor : string;
  badgeBg : string
}.

Definition CLASS_TYPE_META : gmap string ClassTypeMeta :=
  <["wyk"%string :=
      {| label := "Wykład"; color := "bg-amber-500";
         textColor := "text-amber-400"; badgeBg := "bg-amber-500/20" |}]>
  (<["lab"%string :=
      {| label := "Laboratorium"; color := "bg-blue-500";
         textColor := "text-blue-400"; badgeBg := "bg-blue-500/20" |}]>
  (<["proj"%string :=
      {| label := "Projekt"; color := "bg-purple-500";
         textColor := "text-purple-400"; badgeBg := "bg-purple-500/20" |}]>
  (<["ćw"%string :=
      {| label := "Ćwiczenia"; color := "bg-green-500";
         textColor := "text-green-400"; badgeBg := "bg-green-500/20" |}]>
  (<["semin"%string :=
      {| label := "Seminarium"; color := "bg-teal-500";
         textColor := "text-teal-400"; badgeBg := "bg-teal-500/20" |}]>
  (<["lektorat"%string :=
      {| label := "Lektorat"; color := "bg-rose-500";
         textColor := "text-rose-400"; badgeBg := "bg-rose-500/20" |}]>
   ∅))))).

Definition DEFAULT_TYPE_META : ClassTypeMeta :=
  {| label := "Zajęcia"; color := "bg-gray-500";
     textColor := "text-gray-400"; badgeBg := "bg-gray-500/20" |}.

End Types.

(** ** [lib/weeks.ts] *)

Module Weeks.
Import JS Types.

Definition ANCHOR_WEEK : Z := 19.

(** [new Date('2026-03-02T00:00:00')] *)
Definition ANCHOR_MONDAY (tz : TimeZone) : Date :=
  Date_parse_local_midnight tz 2026 3 2.

Definition FIRST_SEMESTER_WEEK : Z := 19.

Definition MS_PER_DAY : Z := 24 * 60 * 60 * 1000.
Definition MS_PER_WEEK : Z := 7 * MS_PER_DAY.

Definition weekToMonday (tz : TimeZone) (week : Z) : Date :=
  getTime (ANCHOR_MONDAY tz) + (week - ANCHOR_WEEK) * MS_PER_WEEK.

Definition weekToSunday (tz : TimeZone) (week : Z) : Date :=
  getTime (weekToMonday tz week) + 6 * MS_PER_DAY.

Definition dateToWeek (tz : TimeZone) (date : Date) : Z :=
  let diffMs := getTime date - getTime (ANCHOR_MONDAY tz) in
  let diffWeeks := diffMs / MS_PER_WEEK in
  let week := ANCHOR_WEEK + diffWeeks in
  Z.max 1 (Z.min 54 week).

(** [now] is the value of [new Date()]. *)
Definition currentWeek (tz : TimeZone) (now : Date) : Z :=
  Z.max (dateToWeek tz now) FIRST_SEMESTER_WEEK.

Definition PL_MONTHS : list string :=
  ["sty"; "lut"; "mar"; "kwi"; "maj"; "cze";
   "lip"; "sie"; "wrz"; "paź"; "lis"; "gru"]%string.

(** [a[i]] of an array of strings inside a template literal: a missing
    element shows as "undefined". *)
Definition template_at (a : list string) (i : value) : string :=
  match i with
  | Num z => if z <? 0 then "undefined" else nth (Z.to_nat z) a "undefined"
  | _ => "undefined"
  end.

(** [date.getDate()] and [date.getMonth()] of a possibly invalid date. *)
Definition getDate_of (tz : TimeZone) (date : option Date) : value :=
  match date with
  | Some d => Num (getDate tz d)
  | None => NaN
  end.

Definition getMonth_of (tz : TimeZone) (date : option Date) : value :=
  match date with
  | Some d => Num (getMonth tz d)
  | None => NaN
  end.

Definition fmt (tz : TimeZone) (date : option Date) : string :=
  (String_of_value (getDate_of tz date) ++ " "
   ++ template_at PL_MONTHS (getMonth_of tz date))%string.

Definition weekLabel (tz : TimeZone) (week : Z) : string :=
  let mon := weekToMonday tz week in
  let sun := weekToSunday tz week in
  (fmt tz (Some mon) ++ " – " ++ fmt tz (Some sun))%string.

(** [isoString.split('T')[0]] *)
Definition toDateKey (isoString : string) : string :=
  nth 0 (split "T" isoString) EmptyString.

Definition weekLabelFromEvents (tz : TimeZone) (events : list ScheduleEvent)
    (week : Z) : string :=
  match events with
  | [] => weekLabel tz week
  | _ =>
      let dateKeys :=
        sort SortCompare
          (Set_from (map (fun e => nth 0 (split "T" (start e)) EmptyString) events)) in
      let first := nth 0 dateKeys EmptyString in
      let last := nth (length dateKeys - 1) dateKeys EmptyString in
      let f := map Number (split "-" first) in
      let l := map Number (split "-" last) in
      let '(fy, fm, fd) := (index f 0, index f 1, index f 2) in
      let '(ly, lm, ld) := (index l 0, index l 1, index l 2) in
      let firstDate := Date_of_values tz fy (minus fm 1) fd in
      let lastDate := Date_of_values tz ly (minus lm 1) ld in
      if strict_eq fm lm
      then (String_of_value (getDate_of tz firstDate) ++ " – " ++ fmt tz lastDate)%string
      else (fmt tz firstDate ++ " – " ++ fmt tz lastDate)%string
  end.

Definition PL_DAYS_LONG : list string :=
  ["Niedziela"; "Poniedziałek"; "Wtorek"; "Środa";
   "Czwartek"; "Piątek"; "Sobota"]%string.

Definition PL_MONTHS_LONG : list string :=
  ["stycznia"; "lutego"; "marca"; "kwietnia"; "maja"; "czerwca";
   "lipca"; "sierpnia"; "września"; "października"; "listopada"; "grudnia"]%string.

Definition dayHeader (tz : TimeZone) (dateStr : string) : string :=
  let parts := map Number (split "-" (nth 0 (split "T" dateStr) EmptyString)) in
  let '(year, month, day) := (index parts 0, index parts 1, index parts 2) in
  let date := Date_of_values tz year (minus month 1) day in
  let dayName :=
    template_at PL_DAYS_LONG
      (match date with Some d => Num (getDay tz d) | None => NaN end) in
  let monthName := template_at PL_MONTHS_LONG (getMonth_of tz date) in
  (dayName ++ ", " ++ String_of_value day ++ " " ++ monthName)%string.

(** [isoString.split('T')[1].substring(0, 5)]; without a ['T'] the second
    part is [undefined] and the call throws, which is [None]. *)
Definition formatTime (isoString : string) : option string :=
  match split "T" isoString with
  | _ :: time :: _ => Some (substring_from_0 5 time)
  | _ => None
  end.

End Weeks.

(** ** [App.tsx] *)

Module App.
Import JS Types Weeks.

Definition WEEK_KEY : string := "sutplan_week".
Definition MIN_WEEK : Z := 19.
Definition MAX_WEEK : Z := 54.

(** [localStorage] is a finite map from keys to strings; [now] is the time
    at which the application starts. *)
Definition getInitialWeek (tz : TimeZone) (localStorage : gmap string string)
    (now : Date) : Z :=
  match localStorage !! WEEK_KEY with
  | Some stored =>
      if String.eqb stored EmptyString then currentWeek tz now
      else
        match parseInt stored with
        | Num n =>
            if (MIN_WEEK <=? n) && (n <=? MAX_WEEK) then n
            else currentWeek tz now
        | _ => currentWeek tz now
        end
  | None => currentWeek tz now
  end.

(** The comparator [localeCompare] is the host's locale-sensitive string
    comparison, a parameter. *)
Definition groupByDay_body (map : JSMap.t (list ScheduleEvent))
    (event : ScheduleEvent) : JSMap.t (list ScheduleEvent) :=
  let key := toDateKey (start event) in
  let map := if negb (JSMap.has map key) then JSMap.set map key [] else map in
  JSMap.push map key event.

Definition groupByDay (localeCompare : string -> string -> Z)
    (events : list ScheduleEvent) : list (string * list ScheduleEvent) :=
  let map := fold_left groupByDay_body events JSMap.empty in
  sort (fun a b => localeCompare (fst a) (fst b)) (JSMap.entries map).

(** The component's state: the [week] cursor and the browser's storage. *)
Record state : Type := {
  week : Z;
  localStorage : gmap string string
}.

Definition mount (tz : TimeZone) (storage : gmap string string) (now : Date) : state :=
  {| week := getInitialWeek tz storage now; localStorage := storage |}.

Definition changeWeek (next : Z) (st : state) : state :=
  let clamped := Z.max MIN_WEEK (Z.min MAX_WEEK next) in
  {| week := clamped;
     localStorage := <[WEEK_KEY := String_of_Z clamped]> (localStorage st) |}.

Definition onPrev (st : state) : state := changeWeek (week st - 1) st.
Definition onNext (st : state) : state := changeWeek (week st + 1) st.
Definition canGoPrev (st : state) : bool := MIN_WEEK <? week st.
Definition canGoNext (st : state) : bool := week st <? MAX_WEEK.

(** The states the component goes through: mounted once, then any sequence
    of calls of [changeWeek]. *)
Inductive reachable (tz : TimeZone) : state -> Prop :=
| reach_mount storage now : reachable tz (mount tz storage now)
| reach_change st next : reachable tz st -> reachable tz (changeWeek next st).

(** What [useSchedule] hands to [App]: the events once loaded, the two
    flags, and the message of the error if there is one. *)
Record query : Type := {
  data : option (list ScheduleEvent);
  isLoading : bool;
  isError : bool;
  error : option string
}.

(** The elements [App] renders inside [<main>]. *)
Inductive content : Type :=
| SkeletonWeek
| ErrorState (message : string)
| EmptyWeek
| DaySection (dateKey : string) (events : list ScheduleEvent).

Definition App_main (localeCompare : string -> string -> Z) (q : query)
    : list content :=
  let days :=
    match data q with
    | Some d => groupByDay localeCompare d
    | None => []
    end in
  (if isLoading q then [SkeletonWeek] else [])
  ++ (if isError q
      then [ErrorState (match error q with
                        | Some message => message
                        | None => "Sprawdź połączenie z internetem."
                        end)]
      else [])
  ++ (if negb (isLoading q) && negb (isError q) && (length days =? 0)%nat
      then [EmptyWeek] else [])
  ++ (if negb (isLoading q) && negb (isError q)
      then map (fun day => DaySection (fst day) (snd day)) days
      else []).

End App.

(** ** [hooks/useSchedule.ts] *)

Module UseSchedule.
Import JS Types.

Definition GROUP_ID : string := "343167655".

(** [import.meta.env.VITE_API_URL ?? 'http://127.0.0.1:6565'] *)
Definition API_URL (VITE_API_URL : option string) : string :=
  match VITE_API_URL with
  | Some url => url
  | None => "http://127.0.0.1:6565"
  end.

(** The address [fetchSchedule] requests. *)
Definition fetchSchedule_url (VITE_API_URL : option string) (week : Z) : string :=
  (API_URL VITE_API_URL ++ "/schedule?group_id=" ++ GROUP_ID
   ++ "&week=" ++ String_of_Z week)%string.

(** The outcome of [fetchSchedule] for a response with the given [ok] flag,
    status and body: the thrown error's message, or the events. *)
Definition fetchSchedule_outcome (ok : bool) (status : Z)
    (json : list ScheduleEvent) : string + list ScheduleEvent :=
  if ok then inr json
  else inl ("Błąd serwera: " ++ String_of_Z status)%string.

End UseSchedule.

(** ** [components/WeekNavigator.tsx] and [components/ClassCard.tsx] *)

Module Components.
Import JS Types Weeks.

(** The label shown by [WeekNavigator]; [events] is absent until loaded. *)
Definition WeekNavigator_label (tz : TimeZone)
    (week : Z) (events : option (list ScheduleEvent)) : string :=
  match events with
  | Some (e :: es) => weekLabelFromEvents tz (e :: es) week
  | _ => weekLabel tz week
  end.

Section ClassCard.

(** The resolution is stated for any table from classification tag to
    display metadata and any metadata of the default category; the ones of
    [types.ts] are [Types.CLASS_TYPE_META] and [Types.DEFAULT_TYPE_META]. *)
Context {TypeMeta : Type}.
Variable CLASS_TYPE_META : gmap string TypeMeta.
Variable DEFAULT_TYPE_META : TypeMeta.

(** The [meta] of [ClassCard]:
    [event.type ? (CLASS_TYPE_META[event.type] ?? DEFAULT_TYPE_META)
                : DEFAULT_TYPE_META].
    The table is a plain object, so the lookup also finds the members of
    [Object.prototype], and [??] keeps them. *)
Definition ClassCard_meta (event : ScheduleEvent) : property TypeMeta :=
  match type event with
  | Some ty =>
      if String.eqb ty EmptyString then Value DEFAULT_TYPE_META
      else
        match get CLASS_TYPE_META ty with
        | Some meta => meta
        | None => Value DEFAULT_TYPE_META
        end
  | None => Value DEFAULT_TYPE_META
  end.

End ClassCard.

(** What a [ClassCard] shows. *)
Record card : Type := {
  card_meta : property ClassTypeMeta;
  card_title : string;
  card_startTime : string;
  card_endTime : string;
  card_teacher : option string;
  card_room : option string
}.

(** The text of the badge, [meta.label]; a member of [Object.prototype] has
    no [label], the badge is then empty ([None]). *)
Definition badge (meta : property ClassTypeMeta) : option string :=
  match meta with
  | Value m => Some (label m)
  | Inherited _ => None
  end.

(** [x && (...)] in JSX shows the element for a non-empty string. *)
Definition shown (x : option string) : option string :=
  match x with
  | Some s => if String.eqb s EmptyString then None else Some s
  | None => None
  end.

(** [ClassCard] with the table of [types.ts]; [None] when [formatTime]
    throws. *)
Definition ClassCard (event : ScheduleEvent) : option card :=
  let meta := ClassCard_meta Types.CLASS_TYPE_META Types.DEFAULT_TYPE_META event in
  match formatTime (start event) with
  | None => None
  | Some startTime =>
      match formatTime (end_ event) with
      | None => None
      | Some endTime =>
          Some {| card_meta := meta;
                  card_title := match subject event with
                                | Some s => s
                                | None => summary_raw event
                                end;
                  card_startTime := startTime;
                  card_endTime := endTime;
                  card_teacher := shown (teacher event);
                  card_room := shown (room event) |}
      end
  end.

(** The heading of a [DaySection]: [dayHeader(dateKey + 'T00:00:00')]. *)
Definition DaySection_heading (tz : TimeZone) (dateKey : string) : string :=
  dayHeader tz (dateKey ++ "T00:00:00")%string.

End Components.

(** ** Vocabulary of the specification *)

Module Spec.
Import JS Types Weeks.

(** A calendar day: year, month (1..12) and day of the month. *)
Record CalendarDay : Type := {
  cd_year : Z;
  cd_month : Z;
  cd_day : Z
}.

Definition is_leap (y : Z) : bool :=
  ((y mod 4 =? 0) && negb (y mod 100 =? 0)) || (y mod 400 =? 0).

Definition days_in_month (y m : Z) : Z :=
  if m =? 2 then (if is_leap y then 29 else 28)
  else if (m =? 4) || (m =? 6) || (m =? 9) || (m =? 11) then 30
  else 31.

(** A day of the Gregorian calendar whose year is written with four digits,
    from year 100 on (the [Date] constructor reads a year below 100 as
    1900 + year). *)
Definition valid_day (c : CalendarDay) : bool :=
  (100 <=? cd_year c) && (cd_year c <=? 9999)
  && (1 <=? cd_month c) && (cd_month c <=? 12)
  && (1 <=? cd_day c) && (cd_day c <=? days_in_month (cd_year c) (cd_month c)).

(** Chronological order of calendar days. *)
Definition day_le (a b : CalendarDay) : Prop :=
  cd_year a < cd_year b
  \/ (cd_year a = cd_year b
      /\ (cd_month a < cd_month b
          \/ (cd_month a = cd_month b /\ cd_day a <= cd_day b))).

Definition day_compare (a b : CalendarDay) : comparison :=
  match cd_year a ?= cd_year b with
  | Eq =>
      match cd_month a ?= cd_month b with
      | Eq => cd_day a ?= cd_day b
      | r => r
      end
  | r => r
  end.

(** The DateKey of a day: zero-padded [YYYY-MM-DD]. *)
Definition digit_char (d : Z) : ascii := ascii_of_N (Z.to_N (48 + d)).

Definition pad2 (n : Z) : string :=
  String (digit_char (n / 10)) (String (digit_char (n mod 10)) EmptyString).

Definition pad4 (n : Z) : string :=
  String (digit_char (n / 1000))
    (String (digit_char (n / 100 mod 10)) (pad2 (n mod 100))).

Definition DateKey_of (c : CalendarDay) : string :=
  (pad4 (cd_year c) ++ "-" ++ pad2 (cd_month c) ++ "-" ++ pad2 (cd_day c))%string.

(** An event starts on the day [c] when the date part of its start
    timestamp is the DateKey of [c], a valid day; a list is well dated when
    each of its events starts on some day. *)
Definition starts_on (e : ScheduleEvent) (c : CalendarDay) : Prop :=
  valid_day c = true /\ toDateKey (start e) = DateKey_of c.

Definition well_dated (events : list ScheduleEvent) : Prop :=
  forall e, In e events -> exists c, starts_on e c.

(** [c] is the earliest (latest) day on which an event of the list starts. *)
Definition earliest (c : CalendarDay) (events : list ScheduleEvent) : Prop :=
  (exists e, In e events /\ starts_on e c)
  /\ forall e c', In e events -> starts_on e c' -> day_le c c'.

Definition latest (c : CalendarDay) (events : list ScheduleEvent) : Prop :=
  (exists e, In e events /\ starts_on e c)
  /\ forall e c', In e events -> starts_on e c' -> day_le c' c.

(** Abbreviated month name of month [m] in 1..12. *)
Definition month_abbr (m : Z) : string :=
  nth (Z.to_nat (m - 1)) PL_MONTHS "undefined"%string.

(** The two renderings of a range of days. *)
Definition day_month (c : CalendarDay) : string :=
  (String_of_Z (cd_day c) ++ " " ++ month_abbr (cd_month c))%string.

Definition single_month_label (lo hi : CalendarDay) : string :=
  (String_of_Z (cd_day lo) ++ " – " ++ day_month hi)%string.

Definition two_month_label (lo hi : CalendarDay) : string :=
  (day_month lo ++ " – " ++ day_month hi)%string.

Definition range_label (lo hi : CalendarDay) : string :=
  if cd_month lo =? cd_month hi then single_month_label lo hi
  else two_month_label lo hi.

(** The events of a list that start on the day with key [k], in their
    order, and the day buckets of a list in the order in which the days first
    appear. *)
Definition events_on (k : string) (events : list ScheduleEvent) : list ScheduleEvent :=
  List.filter (fun e => String.eqb (toDateKey (start e)) k) events.

Definition buckets_of (events : list ScheduleEvent) : list (string * list ScheduleEvent) :=
  map (fun k => (k, events_on k events))
    (Set_from (map (fun e => toDateKey (start e)) events)).

(** A text without any decimal digit. *)
Fixpoint has_digit (s : string) : bool :=
  match s with
  | EmptyString => false
  | String c r =>
      match digit_of c with
      | Some _ => true
      | None => has_digit r
      end
  end.

(** The two steps of [weekLabelFromEvents] on a non-empty list, named: the
    sorted array of distinct keys, and the label built from its first and
    last key. *)
Definition dateKeys_of (events : list ScheduleEvent) : list string :=
  sort SortCompare (Set_from (map (fun e => toDateKey (start e)) events)).

Definition label_of_keys (tz : TimeZone) (first last : string) : string :=
  let f := map Number (split "-" first) in
  let l := map Number (split "-" last) in
  let firstDate := Date_of_values tz (index f 0) (minus (index f 1) 1) (index f 2) in
  let lastDate := Date_of_values tz (index l 0) (minus (index l 1) 1) (index l 2) in
  if strict_eq (index f 1) (index l 1)
  then (String_of_value (getDate_of tz firstDate) ++ " – " ++ fmt tz lastDate)%string
  else (fmt tz firstDate ++ " – " ++ fmt tz lastDate)%string.

(** In a regular zone a local time value, sent to UTC and back, stays on its
    calendar day: a transition may skip local time forward, by less than a
    day, but not send it back. *)
Definition regular_zone (tz : TimeZone) : Prop :=
  forall t, 0 <= offset_at_utc tz (UTC tz t) - offset_at_local tz t < msPerDay.

(** At the instant [u] the offset of the zone is not behind the offset in
    force at the anchor (local midnight of 2026-03-02) and less than a day
    ahead of it. *)
Definition steady_since_anchor (tz : TimeZone) (u : Z) : Prop :=
  0 <= offset_at_utc tz u
       - offset_at_local tz (MakeDate (days_from_civil 2026 3 2) 0)
    < msPerDay.

(** A comparator that orders its arguments consistently. *)
Definition consistent (cmp : string -> string -> Z) : Prop :=
  (forall a b, cmp a b <= 0 \/ cmp b a <= 0)
  /\ (forall a b c, cmp a b <= 0 -> cmp b c <= 0 -> cmp a c <= 0).


(** A stored text has no leading integer: after optional white space and
    sign it does not start with a decimal digit. *)
Definition no_leading_integer (s : string) : Prop := parseInt s = NaN.

(** Every character of [s] is an ASCII character. *)
Fixpoint ascii_only (s : string) : bool :=
  match s with
  | EmptyString => true
  | String c r => (code c <? 128) && ascii_only r
  end.

(** The range of time values a [Date] can hold: 100,000,000 days either
    side of the epoch. *)
Definition in_Date_range (t : Z) : Prop :=
  -8640000000000000 <= t <= 8640000000000000.

(** The character [c] occurs in [s]. *)
Fixpoint has_char (c : ascii) (s : string) : bool :=
  match s with
  | EmptyString => false
  | String x r => Ascii.eqb x c || has_char c r
  end.

(** The day of the week of a calendar day, 0 for Sunday. *)
Definition weekday_of (c : CalendarDay) : Z :=
  (days_from_civil (cd_year c) (cd_month c) (cd_day c) + 4) mod 7.

(** The day header of a calendar day: "Poniedziałek, 9 marca". *)
Definition day_header (c : CalendarDay) : string :=
  (nth (Z.to_nat (weekday_of c)) PL_DAYS_LONG "undefined" ++ ", "
   ++ String_of_Z (cd_day c) ++ " "
   ++ nth (Z.to_nat (cd_month c - 1)) PL_MONTHS_LONG "undefined")%string.

(** The DateKey of an event. *)
Definition key_of (e : ScheduleEvent) : string := toDateKey (start e).

End Spec.

(** ** Sample data *)

Module Samples.
Import JS Types.

Definition event_at (id start : string) : ScheduleEvent :=
  {| uid := id; start := start; end_ := start;
     subject := None; teacher := None; room := None;
     type := None; summary_raw := id |}.

Definition with_type (ty : option string) (e : ScheduleEvent) : ScheduleEvent :=
  {| uid := uid e; start := start e; end_ := end_ e;
     subject := subject e; teacher := teacher e; room := room e;
     type := ty; summary_raw := summary_raw e |}.

Definition day (y m d : Z) : Spec.CalendarDay :=
  {| Spec.cd_year := y; Spec.cd_month := m; Spec.cd_day := d |}.

Definition monday_lecture : ScheduleEvent :=
  event_at "a" "2026-03-09T08:15:00+01:00".
Definition monday_lab : ScheduleEvent :=
  event_at "b" "2026-03-09T10:00:00+01:00".
Definition friday_lecture : ScheduleEvent :=
  event_at "c" "2026-03-13T12:00:00+01:00".

Definition march_2026_class : ScheduleEvent :=
  event_at "d" "2026-03-15T09:00:00+01:00".
Definition march_2027_class : ScheduleEvent :=
  event_at "e" "2027-03-20T09:00:00+01:00".

Definition week20_events : list ScheduleEvent :=
  [friday_lecture; monday_lecture; monday_lab].

Definition two_year_events : list ScheduleEvent :=
  [march_2027_class; march_2026_class].

(** An event whose start is not a timestamp. *)
Definition undated_class : ScheduleEvent := event_at "f" "soon".

(** A table of display labels by classification tag. *)
Definition sample_meta : gmap string string :=
  {[ "lecture"%string := "Wykład"%string ]}.

End Samples.

(** * Properties *)

Import JS Types Weeks App Components Spec.

(** Linear arithmetic with division and remainder by constants. *)
Ltac lia_div := Z.to_euclidean_division_equations; lia.

(** ** Calendar Mapper *)

Section CalendarMapper.
Variable tz : TimeZone.

Lemma MS_PER_DAY_eq : MS_PER_DAY = msPerDay.
Proof. reflexivity. Qed.

Lemma MS_PER_WEEK_pos : 0 < MS_PER_WEEK.
Proof. reflexivity. Qed.

Lemma weekToMonday_diff (week : Z) :
  getTime (weekToMonday tz week) - getTime (ANCHOR_MONDAY tz)
  = (week - ANCHOR_WEEK) * MS_PER_WEEK.
Proof. unfold weekToMonday, getTime. ring. Qed.

Lemma dateToWeek_unclamped (week : Z) :
  dateToWeek tz (weekToMonday tz week) = Z.max 1 (Z.min 54 week).
Proof.
  unfold dateToWeek. rewrite weekToMonday_diff.
  rewrite Z.div_mul by (pose proof MS_PER_WEEK_pos; lia).
  unfold ANCHOR_WEEK. f_equal. f_equal. ring.
Qed.

Lemma dateToWeek_range (date : Date) : 1 <= dateToWeek tz date <= 54.
Proof. unfold dateToWeek. lia. Qed.

Lemma dateToWeek_mono (d1 d2 : Date) :
  d1 <= d2 -> dateToWeek tz d1 <= dateToWeek tz d2.
Proof.
  intros Hle. unfold dateToWeek, getTime.
  assert (Hdiv : (d1 - ANCHOR_MONDAY tz) / MS_PER_WEEK
                 <= (d2 - ANCHOR_MONDAY tz) / MS_PER_WEEK).
  { apply Z.div_le_mono; [apply MS_PER_WEEK_pos | lia]. }
  lia.
Qed.

Lemma currentWeek_range (now : Date) :
  FIRST_SEMESTER_WEEK <= currentWeek tz now <= 54.
Proof.
  unfold currentWeek, FIRST_SEMESTER_WEEK.
  pose proof (dateToWeek_range now). lia.
Qed.

(** Within a week the mapping is constant: every instant from a Monday up to
    the next one maps to that Monday's week. *)
Lemma dateToWeek_within_week (week ms : Z) :
  1 <= week <= 54 -> 0 <= ms < MS_PER_WEEK ->
  dateToWeek tz (weekToMonday tz week + ms) = week.
Proof.
  intros Hw Hms. unfold dateToWeek, getTime.
  replace (weekToMonday tz week + ms - ANCHOR_MONDAY tz)
    with ((week - ANCHOR_WEEK) * MS_PER_WEEK + ms)
    by (unfold weekToMonday, getTime; ring).
  rewrite Z.div_add_l by (pose proof MS_PER_WEEK_pos; lia).
  rewrite Z.div_small by lia. unfold ANCHOR_WEEK. lia.
Qed.

End CalendarMapper.

(** C1. For every integer [w] in [1, 54], mapping the week to its Monday and
    back with [dateToWeek] gives [w] again. *)
Theorem dateToWeek_weekToMonday (tz : TimeZone) (w : Z) :
  1 <= w <= 54 -> dateToWeek tz (weekToMonday tz w) = w.
Proof. intros Hw. rewrite dateToWeek_unclamped. lia. Qed.

Lemma dateToWeek_weekToMonday_witness :
  1 <= 20 <= 54
  /\ dateToWeek Europe_Warsaw (weekToMonday Europe_Warsaw 20) = 20.
Proof. split; [lia | apply (dateToWeek_weekToMonday Europe_Warsaw 20); lia]. Defined.

(** C3. [dateToWeek] is monotonically non-decreasing in its date argument,
    and its result lies within [1, 54] for every date, however far from the
    anchor. *)
Theorem dateToWeek_monotone_bounded (tz : TimeZone) :
  (forall d1 d2 : Date, d1 <= d2 -> dateToWeek tz d1 <= dateToWeek tz d2)
  /\ (forall d : Date, 1 <= dateToWeek tz d <= 54).
Proof. split; [apply dateToWeek_mono | apply dateToWeek_range]. Qed.

Lemma dateToWeek_monotone_bounded_witness :
  dateToWeek Europe_Warsaw 1772406000000 <= dateToWeek Europe_Warsaw 1780000000000
  /\ 1 <= dateToWeek Europe_Warsaw 1780000000000 <= 54.
Proof.
  destruct (dateToWeek_monotone_bounded Europe_Warsaw) as [Hmono Hrange].
  split; [apply Hmono; lia | apply Hrange].
Defined.

(** Far from the anchor the result is the nearer end of the range. *)
Example dateToWeek_far :
  dateToWeek Europe_Warsaw (-8640000000000000) = 1
  /\ dateToWeek Europe_Warsaw 8640000000000000 = 54.
Proof. split; reflexivity. Qed.

(** ** Local calendar fields *)

Lemma Day_shift (n r : Z) : 0 <= r < msPerDay -> Day (n * msPerDay + r) = n.
Proof.
  intros Hr. unfold Day.
  rewrite Z.div_add_l by (unfold msPerDay; lia).
  rewrite Z.div_small by exact Hr. lia.
Qed.

Lemma fixed_zone_regular (off : Z) : regular_zone (fixed_zone off).
Proof. intros t. simpl. unfold msPerDay. lia. Qed.

Lemma Europe_Warsaw_regular : regular_zone Europe_Warsaw.
Proof.
  intros t. unfold UTC. cbn [Europe_Warsaw offset_at_utc offset_at_local].
  destruct (cest_at_utc (t - 2 * msPerHour)) eqn:Hsummer.
  - rewrite Hsummer. unfold msPerDay, msPerHour. lia.
  - destruct (cest_at_utc (t - msPerHour)); unfold msPerDay, msPerHour; lia.
Qed.

Section AnchorDays.
Variable tz : TimeZone.

Lemma ANCHOR_MONDAY_local :
  ANCHOR_MONDAY tz
  = 20514 * msPerDay - offset_at_local tz (MakeDate (days_from_civil 2026 3 2) 0).
Proof. reflexivity. Qed.

(** [n] days after the anchor the local day is the [n]-th after 2026-03-02,
    provided the zone has held steady. *)
Lemma Day_after_anchor (n : Z) :
  steady_since_anchor tz (ANCHOR_MONDAY tz + n * msPerDay) ->
  Day (LocalTime tz (ANCHOR_MONDAY tz + n * msPerDay)) = 20514 + n.
Proof.
  unfold steady_since_anchor, LocalTime. intros Hsteady.
  set (u := ANCHOR_MONDAY tz + n * msPerDay) in *.
  set (d := offset_at_utc tz u
            - offset_at_local tz (MakeDate (days_from_civil 2026 3 2) 0)) in *.
  replace (u + offset_at_utc tz u) with ((20514 + n) * msPerDay + d).
  - apply Day_shift. exact Hsteady.
  - subst u d. rewrite ANCHOR_MONDAY_local. ring.
Qed.

Lemma weekToMonday_days (week : Z) :
  weekToMonday tz week = ANCHOR_MONDAY tz + (7 * (week - 19)) * msPerDay.
Proof.
  unfold weekToMonday, getTime, ANCHOR_WEEK, MS_PER_WEEK, Date.
  rewrite MS_PER_DAY_eq. ring.
Qed.

Lemma weekToSunday_days (week : Z) :
  weekToSunday tz week = ANCHOR_MONDAY tz + (7 * (week - 19) + 6) * msPerDay.
Proof.
  unfold weekToSunday, getTime, Date.
  rewrite weekToMonday_days, MS_PER_DAY_eq. ring.
Qed.

Lemma weekToMonday_local_day (week : Z) :
  steady_since_anchor tz (weekToMonday tz week) ->
  Day (LocalTime tz (weekToMonday tz week)) = 20514 + 7 * (week - 19).
Proof. rewrite weekToMonday_days. apply Day_after_anchor. Qed.

Lemma weekToSunday_local_day (week : Z) :
  steady_since_anchor tz (weekToSunday tz week) ->
  Day (LocalTime tz (weekToSunday tz week)) = 20514 + (7 * (week - 19) + 6).
Proof. rewrite weekToSunday_days. apply Day_after_anchor. Qed.

Lemma weekToSunday_minus_weekToMonday (week : Z) :
  getTime (weekToSunday tz week) - getTime (weekToMonday tz week) = 6 * msPerDay.
Proof. unfold weekToSunday, getTime. rewrite MS_PER_DAY_eq. ring. Qed.

(** As long as the zone holds steady, the Monday of a week falls on a
    Monday and its Sunday on a Sunday. *)
Lemma weekToMonday_is_monday (week : Z) :
  steady_since_anchor tz (weekToMonday tz week) ->
  getDay tz (weekToMonday tz week) = 1.
Proof.
  intros Hs. unfold getDay, WeekDay. rewrite weekToMonday_local_day by exact Hs.
  replace (20514 + 7 * (week - 19) + 4) with (1 + (2931 + (week - 19)) * 7) by ring.
  rewrite Z.mod_add by lia. reflexivity.
Qed.

Lemma weekToSunday_is_sunday (week : Z) :
  steady_since_anchor tz (weekToSunday tz week) ->
  getDay tz (weekToSunday tz week) = 0.
Proof.
  intros Hs. unfold getDay, WeekDay. rewrite weekToSunday_local_day by exact Hs.
  replace (20514 + (7 * (week - 19) + 6) + 4) with (0 + (2932 + (week - 19)) * 7) by ring.
  rewrite Z.mod_add by lia. reflexivity.
Qed.

End AnchorDays.

(** C4. With the anchor (week 19 = Monday 2026-03-02), the Monday of week 20
    is 2026-03-09 and the label of week 20 is "9 mar – 15 mar"; for every
    week, Sunday minus Monday is exactly 6 days.  The calendar date of an
    instant is read in the host's time zone, whose offset at the two instants
    must not be behind the offset at the anchor. *)
Theorem week20_monday_label_and_span (tz : TimeZone) :
  (steady_since_anchor tz (weekToMonday tz 20) ->
   steady_since_anchor tz (weekToSunday tz 20) ->
   (getFullYear tz (weekToMonday tz 20),
    getMonth tz (weekToMonday tz 20) + 1,
    getDate tz (weekToMonday tz 20)) = (2026, 3, 9)
   /\ weekLabel tz 20 = "9 mar – 15 mar"%string)
  /\ forall w : Z,
       getTime (weekToSunday tz w) - getTime (weekToMonday tz w) = 6 * msPerDay.
Proof.
  split; [| apply weekToSunday_minus_weekToMonday].
  intros Hmon Hsun.
  pose proof (weekToMonday_local_day tz 20 Hmon) as Dmon.
  pose proof (weekToSunday_local_day tz 20 Hsun) as Dsun.
  split.
  - unfold getFullYear, getMonth, getDate, YearFromTime, MonthFromTime, DateFromTime.
    rewrite Dmon. reflexivity.
  - unfold weekLabel, fmt, getDate_of, getMonth_of, getDate, getMonth,
      MonthFromTime, DateFromTime.
    rewrite Dmon, Dsun. reflexivity.
Qed.

Lemma Europe_Warsaw_steady_week20 :
  steady_since_anchor Europe_Warsaw (weekToMonday Europe_Warsaw 20)
  /\ steady_since_anchor Europe_Warsaw (weekToSunday Europe_Warsaw 20).
Proof.
  split; (unfold steady_since_anchor; split;
          [vm_compute; discriminate | vm_compute; reflexivity]).
Qed.

Lemma week20_monday_label_and_span_witness :
  (steady_since_anchor Europe_Warsaw (weekToMonday Europe_Warsaw 20)
   /\ steady_since_anchor Europe_Warsaw (weekToSunday Europe_Warsaw 20))
  /\ (getFullYear Europe_Warsaw (weekToMonday Europe_Warsaw 20),
      getMonth Europe_Warsaw (weekToMonday Europe_Warsaw 20) + 1,
      getDate Europe_Warsaw (weekToMonday Europe_Warsaw 20)) = (2026, 3, 9)
  /\ weekLabel Europe_Warsaw 20 = "9 mar – 15 mar"%string.
Proof.
  split; [exact Europe_Warsaw_steady_week20 |].
  apply (proj1 (week20_monday_label_and_span Europe_Warsaw));
    apply Europe_Warsaw_steady_week20.
Defined.

(** A zone with a fixed offset is steady at every instant. *)
Lemma fixed_zone_steady (off u : Z) : steady_since_anchor (fixed_zone off) u.
Proof. unfold steady_since_anchor. simpl. unfold msPerDay. lia. Qed.

Lemma weekLabel_20_fixed_zone (off : Z) :
  weekLabel (fixed_zone off) 20 = "9 mar – 15 mar"%string.
Proof.
  pose proof (weekToMonday_local_day (fixed_zone off) 20
                (fixed_zone_steady off _)) as Dmon.
  pose proof (weekToSunday_local_day (fixed_zone off) 20
                (fixed_zone_steady off _)) as Dsun.
  unfold weekLabel, fmt, getDate_of, getMonth_of, getDate, getMonth,
    MonthFromTime, DateFromTime.
  rewrite Dmon, Dsun. reflexivity.
Qed.

(** In Europe/Warsaw every week of the semester starts on a Monday and ends
    on the Sunday six calendar days later, also across the change to summer
    time on 2026-03-29 and back on 2026-10-25. *)
Lemma Europe_Warsaw_semester_weeks :
  forallb (fun w =>
             (getDay Europe_Warsaw (weekToMonday Europe_Warsaw w) =? 1)
             && (getDay Europe_Warsaw (weekToSunday Europe_Warsaw w) =? 0)
             && (Day (LocalTime Europe_Warsaw (weekToSunday Europe_Warsaw w))
                 - Day (LocalTime Europe_Warsaw (weekToMonday Europe_Warsaw w)) =? 6))
          (map Z.of_nat (seq 19 36)) = true.
Proof. vm_compute. reflexivity. Qed.

Lemma Europe_Warsaw_week_days (w : Z) :
  MIN_WEEK <= w <= MAX_WEEK ->
  getDay Europe_Warsaw (weekToMonday Europe_Warsaw w) = 1
  /\ getDay Europe_Warsaw (weekToSunday Europe_Warsaw w) = 0.
Proof.
  unfold MIN_WEEK, MAX_WEEK. intros Hw.
  pose proof Europe_Warsaw_semester_weeks as Hall.
  rewrite forallb_forall in Hall.
  assert (Hin : In w (map Z.of_nat (seq 19 36))).
  { apply in_map_iff. exists (Z.to_nat w). split; [lia |]. apply in_seq. lia. }
  specialize (Hall w Hin). cbv beta in Hall.
  apply andb_prop in Hall. destruct Hall as [Hall _].
  apply andb_prop in Hall. destruct Hall as [Hmon Hsun].
  apply Z.eqb_eq in Hmon, Hsun. split; assumption.
Qed.

Example weekLabel_across_summer_time :
  weekLabel Europe_Warsaw 22 = "23 mar – 29 mar"%string
  /\ weekLabel Europe_Warsaw 23 = "30 mar – 5 kwi"%string
  /\ weekLabel Europe_Warsaw 54 = "2 lis – 8 lis"%string.
Proof. repeat split; vm_compute; reflexivity. Qed.

Example dayHeader_monday :
  dayHeader Europe_Warsaw "2026-03-09T00:00:00" = "Poniedziałek, 9 marca"%string.
Proof. vm_compute. reflexivity. Qed.

Example formatTime_quarter_past_eight :
  formatTime "2026-03-09T08:15:00+01:00" = Some "08:15"%string
  /\ formatTime "2026-03-09" = None.
Proof. split; reflexivity. Qed.

(** ** Navigation State *)

Section Navigation.
Variable tz : TimeZone.

Lemma getInitialWeek_range (storage : gmap string string) (now : Date) :
  MIN_WEEK <= getInitialWeek tz storage now <= MAX_WEEK.
Proof.
  pose proof (currentWeek_range tz now) as Hcur.
  unfold FIRST_SEMESTER_WEEK in Hcur. unfold getInitialWeek, MIN_WEEK, MAX_WEEK.
  destruct (storage !! WEEK_KEY) as [stored|]; [| exact Hcur].
  destruct (String.eqb stored EmptyString); [exact Hcur |].
  destruct (parseInt stored) as [| |n]; try exact Hcur.
  destruct ((19 <=? n) && (n <=? 54)) eqn:Hin; [| exact Hcur].
  apply andb_prop in Hin. destruct Hin as [Hlo Hhi]. lia.
Qed.

Lemma changeWeek_range (next : Z) (st : state) :
  MIN_WEEK <= week (changeWeek next st) <= MAX_WEEK.
Proof. unfold changeWeek, MIN_WEEK, MAX_WEEK. simpl. lia. Qed.

Lemma changeWeek_below (next : Z) (st : state) :
  next < MIN_WEEK -> week (changeWeek next st) = MIN_WEEK.
Proof. unfold changeWeek, MIN_WEEK, MAX_WEEK. simpl. lia. Qed.

Lemma changeWeek_above (next : Z) (st : state) :
  MAX_WEEK < next -> week (changeWeek next st) = MAX_WEEK.
Proof. unfold changeWeek, MIN_WEEK, MAX_WEEK. simpl. lia. Qed.

Lemma changeWeek_inside (next : Z) (st : state) :
  MIN_WEEK <= next <= MAX_WEEK -> week (changeWeek next st) = next.
Proof. unfold changeWeek, MIN_WEEK, MAX_WEEK. simpl. lia. Qed.

(** The cursor is written back under the fixed key. *)
Lemma changeWeek_persists (next : Z) (st : state) :
  localStorage (changeWeek next st) !! WEEK_KEY
  = Some (String_of_Z (week (changeWeek next st))).
Proof. unfold changeWeek. simpl. apply lookup_insert_eq. Qed.

Lemma reachable_range (st : state) :
  reachable tz st -> MIN_WEEK <= week st <= MAX_WEEK.
Proof.
  induction 1 as [storage now | st next _ _].
  - apply getInitialWeek_range.
  - apply changeWeek_range.
Qed.

(** Paging is idle at the ends of the range. *)
Lemma onPrev_at_start (st : state) :
  week st = MIN_WEEK -> week (onPrev st) = MIN_WEEK.
Proof. intros Hw. unfold onPrev. apply changeWeek_below. lia. Qed.

Lemma onNext_at_end (st : state) :
  week st = MAX_WEEK -> week (onNext st) = MAX_WEEK.
Proof. intros Hw. unfold onNext. apply changeWeek_above. lia. Qed.




(** A stored week inside the range is restored. *)
Lemma getInitialWeek_restores (storage : gmap string string) (now : Date)
    (stored : string) (n : Z) :
  storage !! WEEK_KEY = Some stored -> parseInt stored = Num n ->
  MIN_WEEK <= n <= MAX_WEEK ->
  getInitialWeek tz storage now = n.
Proof.
  intros Hst Hn Hin. unfold getInitialWeek. rewrite Hst, Hn.
  destruct (String.eqb stored EmptyString) eqn:Hempty.
  - apply String.eqb_eq in Hempty. subst stored. discriminate Hn.
  - replace ((MIN_WEEK <=? n) && (n <=? MAX_WEEK)) with true; [reflexivity |].
    symmetry. apply andb_true_intro. split; lia.
Qed.

End Navigation.

(** What the state persists, the next start restores. *)
Lemma parseInt_String_of_week :
  forallb (fun n => match parseInt (String_of_Z n) with
                    | Num m => m =? n
                    | _ => false
                    end)
          (map Z.of_nat (seq 19 36)) = true.
Proof. vm_compute. reflexivity. Qed.

Lemma mount_after_changeWeek (tz : TimeZone) (next : Z) (st : state) (now : Date) :
  week (mount tz (localStorage (changeWeek next st)) now)
  = week (changeWeek next st).
Proof.
  pose proof (changeWeek_range next st) as Hr.
  pose proof (changeWeek_persists next st) as Hp.
  set (n := week (changeWeek next st)) in *.
  unfold mount. simpl. apply (getInitialWeek_restores tz _ now (String_of_Z n) n Hp);
    [| exact Hr].
  pose proof parseInt_String_of_week as Hall.
  rewrite forallb_forall in Hall.
  specialize (Hall n).
  assert (Hin : In n (map Z.of_nat (seq 19 36))).
  { apply in_map_iff. exists (Z.to_nat n). unfold MIN_WEEK, MAX_WEEK in Hr.
    split; [lia |]. apply in_seq. lia. }
  specialize (Hall Hin).
  destruct (parseInt (String_of_Z n)) as [| |m]; try discriminate.
  apply Z.eqb_eq in Hall. congruence.
Qed.

(** C2. After initialization and after every call of [changeWeek] the week
    cursor lies in [MIN_WEEK, MAX_WEEK] = [19, 54]; a call with a value below
    [MIN_WEEK] sets it to exactly [MIN_WEEK], a call with a value above
    [MAX_WEEK] to exactly [MAX_WEEK]. *)
Theorem week_cursor_clamped (tz : TimeZone) :
  (MIN_WEEK, MAX_WEEK) = (19, 54)
  /\ (forall st : state, reachable tz st -> MIN_WEEK <= week st <= MAX_WEEK)
  /\ (forall (next : Z) (st : state),
        next < MIN_WEEK -> week (changeWeek next st) = MIN_WEEK)
  /\ (forall (next : Z) (st : state),
        MAX_WEEK < next -> week (changeWeek next st) = MAX_WEEK).
Proof.
  split; [reflexivity |].
  split; [apply reachable_range |].
  split; [apply changeWeek_below | apply changeWeek_above].
Qed.

Lemma week_cursor_clamped_witness :
  week (changeWeek (-3) (changeWeek 100 (mount Europe_Warsaw ∅ 0))) = 19
  /\ week (changeWeek 100 (mount Europe_Warsaw ∅ 0)) = 54
  /\ 19 <= week (mount Europe_Warsaw ∅ 0) <= 54.
Proof.
  destruct (week_cursor_clamped Europe_Warsaw) as (_ & Hreach & Hlow & Hhigh).
  split; [apply Hlow; reflexivity |].
  split; [apply Hhigh; reflexivity |].
  apply (Hreach (mount Europe_Warsaw ∅ 0)). apply reach_mount.
Defined.




(** ** Sorting *)

Section Sorting.
Context {A : Type}.
Variable cmp : A -> A -> Z.

Lemma sort_insert_perm (x : A) (l : list A) :
  Permutation (sort_insert cmp x l) (x :: l).
Proof.
  induction l as [|y l IH]; simpl.
  - apply Permutation_refl.
  - destruct (cmp x y <=? 0).
    + apply Permutation_refl.
    + eapply Permutation_trans; [apply perm_skip; exact IH | apply perm_swap].
Qed.

Lemma sort_perm (l : list A) : Permutation (sort cmp l) l.
Proof.
  induction l as [|x l IH]; simpl.
  - apply perm_nil.
  - eapply Permutation_trans; [apply sort_insert_perm | apply perm_skip; exact IH].
Qed.

Lemma sort_length (l : list A) : length (sort cmp l) = length l.
Proof. apply Permutation_length, sort_perm. Qed.

Lemma sort_In (x : A) (l : list A) : In x (sort cmp l) <-> In x l.
Proof.
  split; apply Permutation_in; [| apply Permutation_sym]; apply sort_perm.
Qed.

Hypothesis cmp_total : forall a b, cmp a b <= 0 \/ cmp b a <= 0.
Hypothesis cmp_trans : forall a b c, cmp a b <= 0 -> cmp b c <= 0 -> cmp a c <= 0.

Lemma sort_insert_sorted (x : A) (l : list A) :
  StronglySorted (fun a b => cmp a b <= 0) l ->
  StronglySorted (fun a b => cmp a b <= 0) (sort_insert cmp x l).
Proof.
  induction 1 as [|y l Hl IH Hy]; simpl.
  - constructor; [constructor | constructor].
  - destruct (cmp x y <=? 0) eqn:Hxy.
    + apply Z.leb_le in Hxy. constructor.
      * constructor; assumption.
      * constructor; [exact Hxy |].
        eapply List.Forall_impl; [| exact Hy].
        intros z Hyz. simpl in Hyz. eapply cmp_trans; eassumption.
    + apply Z.leb_gt in Hxy. constructor; [exact IH |].
      eapply Permutation_Forall; [apply Permutation_sym, sort_insert_perm |].
      constructor; [| exact Hy].
      destruct (cmp_total x y) as [H | H]; [lia | exact H].
Qed.

Lemma sort_sorted (l : list A) :
  StronglySorted (fun a b => cmp a b <= 0) (sort cmp l).
Proof.
  induction l as [|x l IH]; simpl.
  - constructor.
  - apply sort_insert_sorted. exact IH.
Qed.

End Sorting.

(** ** Event Grouper *)

Lemma String_eqb_refl (s : string) : String.eqb s s = true.
Proof. apply String.eqb_eq. reflexivity. Qed.

Lemma groupByDay_body_same_day (key : string) (bucket : list ScheduleEvent)
    (event : ScheduleEvent) :
  toDateKey (start event) = key ->
  groupByDay_body [(key, bucket)] event = [(key, bucket ++ [event])].
Proof.
  intros Hkey. unfold groupByDay_body, JSMap.has, JSMap.push. rewrite Hkey.
  simpl. rewrite String_eqb_refl. simpl. rewrite String_eqb_refl. reflexivity.
Qed.

Lemma groupByDay_body_first (event : ScheduleEvent) :
  groupByDay_body JSMap.empty event = [(toDateKey (start event), [event])].
Proof.
  unfold groupByDay_body, JSMap.has, JSMap.set, JSMap.push. simpl.
  rewrite String_eqb_refl. reflexivity.
Qed.

Lemma fold_groupByDay_body_same_day (key : string) (events bucket : list ScheduleEvent) :
  (forall e, In e events -> toDateKey (start e) = key) ->
  fold_left groupByDay_body events [(key, bucket)] = [(key, bucket ++ events)].
Proof.
  revert bucket. induction events as [|e events IH]; intros bucket Hall; simpl.
  - rewrite app_nil_r. reflexivity.
  - rewrite groupByDay_body_same_day by (apply Hall; left; reflexivity).
    rewrite IH by (intros e' He'; apply Hall; right; exact He').
    rewrite <- app_assoc. reflexivity.
Qed.

Lemma groupByDay_nil (localeCompare : string -> string -> Z) :
  groupByDay localeCompare [] = [].
Proof. reflexivity. Qed.

Lemma groupByDay_one_day (localeCompare : string -> string -> Z)
    (key : string) (events : list ScheduleEvent) :
  events <> [] ->
  (forall e, In e events -> toDateKey (start e) = key) ->
  groupByDay localeCompare events = [(key, events)].
Proof.
  intros Hne Hall. destruct events as [|e events]; [congruence |].
  unfold groupByDay. simpl fold_left. rewrite groupByDay_body_first.
  rewrite (Hall e) by (left; reflexivity).
  rewrite fold_groupByDay_body_same_day
    by (intros e' He'; apply Hall; right; exact He').
  reflexivity.
Qed.

Lemma groupByDay_sorted (localeCompare : string -> string -> Z)
    (events : list ScheduleEvent) :
  consistent localeCompare ->
  StronglySorted (fun a b => localeCompare (fst a) (fst b) <= 0)
    (groupByDay localeCompare events).
Proof.
  intros [Htotal Htrans]. unfold groupByDay.
  apply (sort_sorted (fun a b : string * list ScheduleEvent =>
                        localeCompare (fst a) (fst b))).
  - intros a b. apply Htotal.
  - intros a b c. apply Htrans.
Qed.

(** ** Code-unit order of strings *)

Lemma Ascii_compare_trans (x y z : ascii) :
  Ascii.compare x y <> Gt -> Ascii.compare y z <> Gt -> Ascii.compare x z <> Gt.
Proof.
  unfold Ascii.compare.
  destruct (N.compare_spec (N_of_ascii x) (N_of_ascii y));
    destruct (N.compare_spec (N_of_ascii y) (N_of_ascii z));
    destruct (N.compare_spec (N_of_ascii x) (N_of_ascii z));
    intros; try congruence; lia.
Qed.

Lemma String_compare_trans (a b c : string) :
  String.compare a b <> Gt -> String.compare b c <> Gt -> String.compare a c <> Gt.
Proof.
  revert b c. induction a as [|x a IH]; intros [|y b] [|z c]; simpl;
    try congruence.
  unfold Ascii.compare.
  destruct (N.compare_spec (N_of_ascii x) (N_of_ascii y)) as [Hxy|Hxy|Hxy];
    destruct (N.compare_spec (N_of_ascii y) (N_of_ascii z)) as [Hyz|Hyz|Hyz];
    destruct (N.compare_spec (N_of_ascii x) (N_of_ascii z)) as [Hxz|Hxz|Hxz];
    intros Hab Hbc; try congruence; try lia.
  apply (IH b c); assumption.
Qed.

Lemma SortCompare_le (a b : string) :
  SortCompare a b <= 0 <-> String.compare a b <> Gt.
Proof.
  unfold SortCompare. destruct (String.compare a b); split; intros H;
    try lia; congruence.
Qed.

Lemma SortCompare_consistent : consistent SortCompare.
Proof.
  split.
  - intros a b. rewrite !SortCompare_le. rewrite (String.compare_antisym b a).
    destruct (String.compare a b); simpl; [left | left | right]; congruence.
  - intros a b c. rewrite !SortCompare_le. apply String_compare_trans.
Qed.

Lemma SortCompare_antisym (a b : string) :
  SortCompare a b <= 0 -> SortCompare b a <= 0 -> a = b.
Proof.
  rewrite !SortCompare_le. rewrite (String.compare_antisym b a).
  destruct (String.compare a b) eqn:Hab; simpl; try congruence.
  intros _ _. apply String.compare_eq_iff. exact Hab.
Qed.

(** C6. [groupByDay] of the empty list is empty; of events that all share
    one calendar day it is exactly one bucket holding all of them in their
    original order; and its buckets are always sorted ascending by the string
    comparison of their DateKeys. *)
Theorem groupByDay_buckets (localeCompare : string -> string -> Z) :
  groupByDay localeCompare [] = []
  /\ (forall (key : string) (events : list ScheduleEvent),
        events <> [] ->
        (forall e, In e events -> toDateKey (start e) = key) ->
        groupByDay localeCompare events = [(key, events)])
  /\ (consistent localeCompare ->
      forall events : list ScheduleEvent,
        StronglySorted (fun a b => localeCompare (fst a) (fst b) <= 0)
          (groupByDay localeCompare events)).
Proof.
  split; [apply groupByDay_nil |].
  split; [apply groupByDay_one_day |].
  intros Hcmp events. apply groupByDay_sorted. exact Hcmp.
Qed.

Lemma groupByDay_buckets_witness :
  groupByDay SortCompare [Samples.monday_lecture; Samples.monday_lab]
  = [("2026-03-09"%string, [Samples.monday_lecture; Samples.monday_lab])]
  /\ StronglySorted (fun a b => SortCompare (fst a) (fst b) <= 0)
       (groupByDay SortCompare
          [Samples.friday_lecture; Samples.monday_lecture; Samples.monday_lab]).
Proof.
  destruct (groupByDay_buckets SortCompare) as (_ & Hone & Hsorted).
  split.
  - apply Hone; [discriminate |].
    intros e [<- | [<- | []]]; reflexivity.
  - apply Hsorted. exact SortCompare_consistent.
Defined.

Example groupByDay_two_days :
  groupByDay SortCompare
    [Samples.friday_lecture; Samples.monday_lecture; Samples.monday_lab]
  = [("2026-03-09"%string, [Samples.monday_lecture; Samples.monday_lab]);
     ("2026-03-13"%string, [Samples.friday_lecture])].
Proof. reflexivity. Qed.

(** ** Label Formatter: the formula path *)

(** C8. For every week [w], [weekLabelFromEvents] of the empty list and [w]
    is exactly [weekLabel w]. *)
Theorem weekLabelFromEvents_nil (tz : TimeZone) (w : Z) :
  weekLabelFromEvents tz [] w = weekLabel tz w.
Proof. reflexivity. Qed.

(** The navigator shows the formula label until events arrive. *)
Lemma WeekNavigator_label_formula (tz : TimeZone) (w : Z) :
  WeekNavigator_label tz w None = weekLabel tz w
  /\ WeekNavigator_label tz w (Some []) = weekLabel tz w.
Proof. split; reflexivity. Qed.

Lemma WeekNavigator_label_events (tz : TimeZone) (w : Z)
    (events : list ScheduleEvent) :
  WeekNavigator_label tz w (Some events) = weekLabelFromEvents tz events w.
Proof. destruct events; reflexivity. Qed.

(** ** Class card *)

Section ClassCardFacts.
Context {TypeMeta : Type}.
Variable table : gmap string TypeMeta.
Variable dflt : TypeMeta.

Lemma ClassCard_meta_absent (e : ScheduleEvent) :
  type e = None -> ClassCard_meta table dflt e = Value dflt.
Proof. intros Habs. unfold ClassCard_meta. rewrite Habs. reflexivity. Qed.

Lemma ClassCard_meta_unrecognized (e : ScheduleEvent) (ty : string) :
  type e = Some ty -> table !! ty = None -> inherits ty = false ->
  ClassCard_meta table dflt e = Value dflt.
Proof.
  intros Hty Hnone Hown. unfold ClassCard_meta, get. rewrite Hty, Hnone, Hown.
  destruct (String.eqb ty EmptyString); reflexivity.
Qed.

Lemma ClassCard_meta_recognized (e : ScheduleEvent) (ty : string) (meta : TypeMeta) :
  type e = Some ty -> ty <> EmptyString -> table !! ty = Some meta ->
  ClassCard_meta table dflt e = Value meta.
Proof.
  intros Hty Hne Hsome. unfold ClassCard_meta, get. rewrite Hty, Hsome.
  destruct (String.eqb ty EmptyString) eqn:Hempty; [| reflexivity].
  apply String.eqb_eq in Hempty. contradiction.
Qed.

(** A tag that is no key of the table but names a member of
    [Object.prototype] resolves to that member. *)
Lemma ClassCard_meta_inherited (e : ScheduleEvent) (ty : string) :
  type e = Some ty -> table !! ty = None -> inherits ty = true ->
  ClassCard_meta table dflt e = Inherited ty.
Proof.
  intros Hty Hnone Hinh. unfold ClassCard_meta, get. rewrite Hty, Hnone, Hinh.
  destruct (String.eqb ty EmptyString) eqn:Hempty; [| reflexivity].
  apply String.eqb_eq in Hempty. subst ty. discriminate Hinh.
Qed.

(** The resolution always yields something: the default, the table's entry
    for the tag, or the inherited member of that name. *)
Lemma ClassCard_meta_cases (e : ScheduleEvent) :
  ClassCard_meta table dflt e = Value dflt
  \/ (exists ty meta, type e = Some ty /\ table !! ty = Some meta
        /\ ClassCard_meta table dflt e = Value meta)
  \/ (exists ty, type e = Some ty /\ table !! ty = None /\ inherits ty = true
        /\ ClassCard_meta table dflt e = Inherited ty).
Proof.
  unfold ClassCard_meta, get. destruct (type e) as [ty|]; [| left; reflexivity].
  destruct (String.eqb ty EmptyString); [left; reflexivity |].
  destruct (table !! ty) as [meta|] eqn:Hlook.
  - right. left. exists ty, meta. auto.
  - destruct (inherits ty) eqn:Hinh; [| left; reflexivity].
    right. right. exists ty. auto.
Qed.

(** The default category is resolved for an absent [type] and for a tag that
    is neither a key of the table nor the name of an inherited member. *)
Lemma ClassCard_meta_falls_back (e : ScheduleEvent) :
  (type e = None
   \/ exists ty, type e = Some ty /\ table !! ty = None /\ inherits ty = false) ->
  ClassCard_meta table dflt e = Value dflt.
Proof.
  intros [Habs | (ty & Hty & Hnone & Hown)].
  - apply ClassCard_meta_absent. exact Habs.
  - apply (ClassCard_meta_unrecognized e ty); assumption.
Qed.

End ClassCardFacts.

(** C9. The code departs from the claim on a [type] that names a member of
    [Object.prototype].  The tag "constructor" is not a recognized
    classification tag (no key of [CLASS_TYPE_META]), yet for an event of
    that [type] the metadata resolved by [ClassCard] is the inherited member
    of that name and not [DEFAULT_TYPE_META]. *)
Theorem ClassCard_meta_constructor (e : ScheduleEvent) :
  CLASS_TYPE_META !! "constructor"%string = None
  /\ ClassCard_meta CLASS_TYPE_META DEFAULT_TYPE_META
       (Samples.with_type (Some "constructor"%string) e)
     = Inherited "constructor"%string
  /\ ClassCard_meta CLASS_TYPE_META DEFAULT_TYPE_META
       (Samples.with_type (Some "constructor"%string) e)
     <> Value DEFAULT_TYPE_META.
Proof.
  assert (Hnone : CLASS_TYPE_META !! "constructor"%string = None)
    by (vm_compute; reflexivity).
  assert (Hmeta : ClassCard_meta CLASS_TYPE_META DEFAULT_TYPE_META
                    (Samples.with_type (Some "constructor"%string) e)
                  = Inherited "constructor"%string).
  { apply (ClassCard_meta_inherited _ _ _ "constructor"%string);
      [reflexivity | exact Hnone | reflexivity]. }
  split; [exact Hnone |]. split; [exact Hmeta |].
  rewrite Hmeta. discriminate.
Qed.

Example ClassCard_meta_workshop :
  ClassCard_meta Samples.sample_meta "Inne"%string
    (Samples.with_type (Some "workshop"%string) Samples.monday_lecture)
  = Value "Inne"%string.
Proof.
  apply ClassCard_meta_falls_back.
  right. exists "workshop"%string. split; [reflexivity |].
  split; [apply lookup_singleton_ne; discriminate | reflexivity].
Qed.

Example ClassCard_meta_lecture :
  ClassCard_meta Samples.sample_meta "Inne"%string
    (Samples.with_type (Some "lecture"%string) Samples.monday_lecture)
  = Value "Wykład"%string.
Proof.
  apply (ClassCard_meta_recognized _ _ _ "lecture"%string);
    [reflexivity | discriminate | apply lookup_singleton_eq].
Qed.

(** ** The Gregorian calendar: from a civil date to its day number and back *)

Lemma civil_roundtrip_era :
  forallb (fun y =>
    forallb (fun m =>
      forallb (fun d =>
        implb (d <=? days_in_month y m)
          (match civil_from_days (days_from_civil y m d) with
           | (y', m', d') => (y' =? y) && (m' =? m) && (d' =? d)
           end))
        (map Z.of_nat (seq 1 31)))
      (map Z.of_nat (seq 1 12)))
    (map Z.of_nat (seq 0 400)) = true.
Proof. vm_cast_no_check (eq_refl true). Qed.

Lemma In_Z_range (x : Z) (a n : nat) :
  Z.of_nat a <= x < Z.of_nat a + Z.of_nat n -> In x (map Z.of_nat (seq a n)).
Proof.
  intros Hx. apply in_map_iff. exists (Z.to_nat x). split; [lia |].
  apply in_seq. lia.
Qed.

Lemma days_in_month_bound (y m : Z) : 28 <= days_in_month y m <= 31.
Proof.
  unfold days_in_month.
  destruct (m =? 2); [destruct (is_leap y); lia |].
  destruct ((m =? 4) || (m =? 6) || (m =? 9) || (m =? 11)); lia.
Qed.

Lemma civil_roundtrip_base (y m d : Z) :
  0 <= y < 400 -> 1 <= m <= 12 -> 1 <= d <= days_in_month y m ->
  civil_from_days (days_from_civil y m d) = (y, m, d).
Proof.
  intros Hy Hm Hd. pose proof (days_in_month_bound y m) as Hdim.
  pose proof civil_roundtrip_era as Hall.
  rewrite forallb_forall in Hall.
  specialize (Hall y (In_Z_range y 0 400 ltac:(lia))).
  rewrite forallb_forall in Hall.
  specialize (Hall m (In_Z_range m 1 12 ltac:(lia))).
  rewrite forallb_forall in Hall.
  specialize (Hall d (In_Z_range d 1 31 ltac:(lia))).
  cbv beta in Hall.
  replace (d <=? days_in_month y m) with true in Hall by (symmetry; apply Z.leb_le; lia).
  destruct (civil_from_days (days_from_civil y m d)) as [[y' m'] d'].
  cbn [implb] in Hall.
  apply andb_prop in Hall. destruct Hall as [Hall Hd'].
  apply andb_prop in Hall. destruct Hall as [Hy' Hm'].
  apply Z.eqb_eq in Hy', Hm', Hd'. congruence.
Qed.

Lemma days_from_civil_shift (y m d k : Z) :
  days_from_civil (y + 400 * k) m d = days_from_civil y m d + 146097 * k.
Proof.
  unfold days_from_civil.
  set (y0 := if m <=? 2 then y - 1 else y).
  replace (if m <=? 2 then y + 400 * k - 1 else y + 400 * k) with (y0 + k * 400)
    by (subst y0; destruct (m <=? 2); ring).
  rewrite Z.div_add by lia.
  cbv zeta.
  replace (y0 + k * 400 - (y0 / 400 + k) * 400) with (y0 - y0 / 400 * 400) by ring.
  ring.
Qed.

Lemma civil_from_days_shift (z k : Z) :
  civil_from_days (z + 146097 * k)
  = (fst (fst (civil_from_days z)) + 400 * k,
     snd (fst (civil_from_days z)),
     snd (civil_from_days z)).
Proof.
  unfold civil_from_days.
  replace (z + 146097 * k + 719468) with (z + 719468 + k * 146097) by ring.
  rewrite Z.div_add by lia.
  cbv zeta.
  replace (z + 719468 + k * 146097 - ((z + 719468) / 146097 + k) * 146097)
    with (z + 719468 - (z + 719468) / 146097 * 146097) by ring.
  set (doe := z + 719468 - (z + 719468) / 146097 * 146097).
  set (yoe := (doe - doe / 1460 + doe / 36524 - doe / 146096) / 365).
  set (doy := doe - (365 * yoe + yoe / 4 - yoe / 100)).
  set (mp := (5 * doy + 2) / 153).
  simpl fst. simpl snd.
  destruct ((if mp <? 10 then mp + 3 else mp - 9) <=? 2); f_equal; f_equal; ring.
Qed.

Lemma is_leap_shift (y k : Z) : is_leap (y + 400 * k) = is_leap y.
Proof.
  unfold is_leap.
  replace ((y + 400 * k) mod 4) with (y mod 4)
    by (replace (y + 400 * k) with (y + (100 * k) * 4) by ring;
        rewrite Z.mod_add by lia; reflexivity).
  replace ((y + 400 * k) mod 100) with (y mod 100)
    by (replace (y + 400 * k) with (y + (4 * k) * 100) by ring;
        rewrite Z.mod_add by lia; reflexivity).
  replace ((y + 400 * k) mod 400) with (y mod 400)
    by (replace (y + 400 * k) with (y + k * 400) by ring;
        rewrite Z.mod_add by lia; reflexivity).
  reflexivity.
Qed.

Lemma days_in_month_shift (y m k : Z) :
  days_in_month (y + 400 * k) m = days_in_month y m.
Proof. unfold days_in_month. rewrite is_leap_shift. reflexivity. Qed.

(** The day number of a civil date determines the date, in every year. *)
Lemma civil_roundtrip (y m d : Z) :
  1 <= m <= 12 -> 1 <= d <= days_in_month y m ->
  civil_from_days (days_from_civil y m d) = (y, m, d).
Proof.
  intros Hm Hd.
  pose proof (Z.div_mod y 400 ltac:(lia)) as Hy.
  pose proof (Z.mod_pos_bound y 400 ltac:(lia)) as Hy0.
  set (y0 := y mod 400) in *. set (k := y / 400) in *.
  replace y with (y0 + 400 * k) in * by lia.
  rewrite days_in_month_shift in Hd.
  rewrite days_from_civil_shift, civil_from_days_shift.
  rewrite (civil_roundtrip_base y0 m d) by assumption.
  reflexivity.
Qed.

Lemma MakeDay_civil (y m d : Z) :
  1 <= m <= 12 -> MakeDay y (m - 1) d = days_from_civil y m d.
Proof.
  intros Hm. unfold MakeDay.
  rewrite Z.div_small by lia. rewrite Z.mod_small by lia.
  replace (y + 0) with y by ring. replace (m - 1 + 1) with m by ring.
  unfold days_from_civil. ring.
Qed.

(** [new Date(y, m - 1, d)] shows the day and the month it was built from. *)
Lemma Date_local_fields (tz : TimeZone) (y m d : Z) :
  regular_zone tz ->
  100 <= y -> 1 <= m <= 12 -> 1 <= d <= days_in_month y m ->
  getFullYear tz (Date_local tz y (m - 1) d) = y
  /\ getMonth tz (Date_local tz y (m - 1) d) = m - 1
  /\ getDate tz (Date_local tz y (m - 1) d) = d.
Proof.
  intros Hreg Hy Hm Hd.
  assert (Hday : Day (LocalTime tz (Date_local tz y (m - 1) d)) = days_from_civil y m d).
  { unfold Date_local.
    replace ((0 <=? y) && (y <=? 99)) with false
      by (symmetry; apply andb_false_iff; right; apply Z.leb_gt; lia).
    rewrite MakeDay_civil by exact Hm.
    unfold MakeDate. set (t := days_from_civil y m d * msPerDay + 0).
    specialize (Hreg t). unfold LocalTime.
    replace (UTC tz t + offset_at_utc tz (UTC tz t))
      with (days_from_civil y m d * msPerDay
            + (offset_at_utc tz (UTC tz t) - offset_at_local tz t))
      by (unfold UTC; subst t; ring).
    apply Day_shift. exact Hreg. }
  unfold getFullYear, getMonth, getDate, YearFromTime, MonthFromTime, DateFromTime.
  rewrite Hday, civil_roundtrip by assumption. simpl. repeat split; ring.
Qed.

(** ** DateKeys: their text, their parts and their order *)

Lemma code_digit_char (d : Z) : 0 <= d <= 9 -> code (digit_char d) = 48 + d.
Proof.
  intros Hd. unfold code, digit_char.
  rewrite N_ascii_embedding by lia. lia.
Qed.

Lemma digit_of_digit_char (d : Z) : 0 <= d <= 9 -> digit_of (digit_char d) = Some d.
Proof.
  intros Hd. unfold digit_of. rewrite code_digit_char by exact Hd.
  replace ((48 <=? 48 + d) && (48 + d <=? 57)) with true
    by (symmetry; apply andb_true_intro; split; apply Z.leb_le; lia).
  f_equal. ring.
Qed.

Lemma digit_char_not_hyphen (d : Z) :
  0 <= d <= 9 -> Ascii.eqb (digit_char d) "-" = false.
Proof.
  intros Hd. apply Ascii.eqb_neq. intros Heq.
  pose proof (code_digit_char d Hd) as Hcode. rewrite Heq in Hcode.
  change (code "-") with 45 in Hcode. lia.
Qed.

Lemma Ascii_compare_digit_char (a b : Z) :
  0 <= a <= 9 -> 0 <= b <= 9 ->
  Ascii.compare (digit_char a) (digit_char b) = (a ?= b).
Proof.
  intros Ha Hb. unfold Ascii.compare, digit_char.
  rewrite !N_ascii_embedding by lia.
  rewrite Z2N.inj_compare by lia. apply Z.add_compare_mono_l.
Qed.

Lemma append_String (c : ascii) (s t : string) :
  (String c s ++ t)%string = String c (s ++ t)%string.
Proof. reflexivity. Qed.

Lemma append_Empty (t : string) : (EmptyString ++ t)%string = t.
Proof. reflexivity. Qed.

Lemma split_nonempty (sep : ascii) (s : string) : split sep s <> [].
Proof.
  destruct s as [|c s]; simpl; [discriminate |].
  destruct (Ascii.eqb c sep); [discriminate |].
  destruct (split sep s); discriminate.
Qed.

Lemma split_hyphen (s : string) :
  split "-" (String "-" s) = EmptyString :: split "-" s.
Proof. reflexivity. Qed.

Lemma split_digit (d : Z) (s h : string) (t : list string) :
  0 <= d <= 9 -> split "-" s = h :: t ->
  split "-" (String (digit_char d) s) = String (digit_char d) h :: t.
Proof.
  intros Hd Hs. cbn [split]. rewrite digit_char_not_hyphen by exact Hd.
  rewrite Hs. reflexivity.
Qed.

Lemma Number_pad2_all :
  forallb (fun n => match Number (pad2 n) with Num v => v =? n | _ => false end)
    (map Z.of_nat (seq 0 100)) = true.
Proof. vm_compute. reflexivity. Qed.

Lemma Number_pad4_all :
  forallb (fun n => match Number (pad4 n) with Num v => v =? n | _ => false end)
    (map Z.of_nat (seq 0 (100 * 100))) = true.
Proof. vm_cast_no_check (eq_refl true). Qed.

Lemma Number_pad2 (n : Z) : 0 <= n <= 99 -> Number (pad2 n) = Num n.
Proof.
  intros Hn. pose proof Number_pad2_all as Hall.
  rewrite forallb_forall in Hall.
  specialize (Hall n (In_Z_range n 0 100 ltac:(lia))). cbv beta in Hall.
  destruct (Number (pad2 n)) as [| |v]; try discriminate.
  apply Z.eqb_eq in Hall. congruence.
Qed.

Lemma Number_pad4 (n : Z) : 0 <= n <= 9999 -> Number (pad4 n) = Num n.
Proof.
  intros Hn. pose proof Number_pad4_all as Hall.
  rewrite forallb_forall in Hall.
  specialize (Hall n (In_Z_range n 0 (100 * 100) ltac:(lia))). cbv beta in Hall.
  destruct (Number (pad4 n)) as [| |v]; try discriminate.
  apply Z.eqb_eq in Hall. congruence.
Qed.

Lemma split_DateKey_of (c : CalendarDay) :
  0 <= cd_year c <= 9999 -> 0 <= cd_month c <= 99 -> 0 <= cd_day c <= 99 ->
  split "-" (DateKey_of c) = [pad4 (cd_year c); pad2 (cd_month c); pad2 (cd_day c)].
Proof.
  intros Hy Hm Hd. unfold DateKey_of, pad4, pad2.
  rewrite !append_String, !append_Empty.
  repeat first
    [ apply split_digit; [lia_div |]
    | rewrite split_hyphen; f_equal ].
  reflexivity.
Qed.

Lemma valid_day_bounds (c : CalendarDay) :
  valid_day c = true ->
  100 <= cd_year c <= 9999 /\ 1 <= cd_month c <= 12
  /\ 1 <= cd_day c <= days_in_month (cd_year c) (cd_month c).
Proof.
  unfold valid_day. intros H.
  repeat (apply andb_prop in H; destruct H as [H ?]).
  repeat match goal with
         | H : (_ <=? _) = true |- _ => apply Z.leb_le in H
         end.
  lia.
Qed.

(** The parts of a DateKey, read back as numbers, are the year, the month
    and the day. *)
Lemma parse_DateKey_of (c : CalendarDay) :
  valid_day c = true ->
  map Number (split "-" (DateKey_of c))
  = [Num (cd_year c); Num (cd_month c); Num (cd_day c)].
Proof.
  intros Hv. apply valid_day_bounds in Hv. destruct Hv as (Hy & Hm & Hd).
  pose proof (days_in_month_bound (cd_year c) (cd_month c)) as Hdim.
  rewrite split_DateKey_of by lia. cbn [map].
  rewrite Number_pad4 by lia. rewrite !Number_pad2 by lia. reflexivity.
Qed.

Lemma compare_pad2 (x y : Z) (s t : string) :
  0 <= x <= 99 -> 0 <= y <= 99 ->
  String.compare (pad2 x ++ s) (pad2 y ++ t)
  = match x ?= y with
    | Eq => String.compare s t
    | r => r
    end.
Proof.
  intros Hx Hy. unfold pad2.
  rewrite !append_String, !append_Empty. cbn [String.compare].
  rewrite !Ascii_compare_digit_char by lia_div.
  destruct (Z.compare_spec (x / 10) (y / 10));
    destruct (Z.compare_spec (x mod 10) (y mod 10));
    destruct (Z.compare_spec x y); try reflexivity; lia_div.
Qed.

Lemma compare_pad4 (x y : Z) (s t : string) :
  0 <= x <= 9999 -> 0 <= y <= 9999 ->
  String.compare (pad4 x ++ s) (pad4 y ++ t)
  = match x ?= y with
    | Eq => String.compare s t
    | r => r
    end.
Proof.
  intros Hx Hy. unfold pad4.
  change (String ?a (String ?b ?r) ++ ?s)%string
    with (String a (String b (r ++ s)%string)).
  cbn [String.compare].
  rewrite !Ascii_compare_digit_char by lia_div.
  rewrite compare_pad2 by lia_div.
  destruct (Z.compare_spec (x / 1000) (y / 1000));
    destruct (Z.compare_spec (x / 100 mod 10) (y / 100 mod 10));
    destruct (Z.compare_spec (x mod 100) (y mod 100));
    destruct (Z.compare_spec x y); try reflexivity; lia_div.
Qed.

(** Code-unit order of DateKeys is the chronological order of the days. *)
Lemma compare_DateKey_of (a b : CalendarDay) :
  valid_day a = true -> valid_day b = true ->
  String.compare (DateKey_of a) (DateKey_of b) = day_compare a b.
Proof.
  intros Ha Hb.
  apply valid_day_bounds in Ha. destruct Ha as (Hya & Hma & Hda).
  apply valid_day_bounds in Hb. destruct Hb as (Hyb & Hmb & Hdb).
  pose proof (days_in_month_bound (cd_year a) (cd_month a)).
  pose proof (days_in_month_bound (cd_year b) (cd_month b)).
  unfold DateKey_of, day_compare.
  rewrite compare_pad4 by lia.
  destruct (cd_year a ?= cd_year b); try reflexivity.
  change ("-" ++ ?s)%string with (String "-" s). cbn [String.compare].
  change (Ascii.compare "-" "-") with Eq. cbv iota.
  rewrite compare_pad2 by lia.
  destruct (cd_month a ?= cd_month b); try reflexivity.
  change ("-" ++ ?s)%string with (String "-" s). cbn [String.compare].
  change (Ascii.compare "-" "-") with Eq. cbv iota.
  change (pad2 (cd_day a)) with (pad2 (cd_day a) ++ EmptyString)%string.
  change (pad2 (cd_day b)) with (pad2 (cd_day b) ++ EmptyString)%string.
  rewrite compare_pad2 by lia.
  destruct (cd_day a ?= cd_day b); reflexivity.
Qed.

Lemma day_le_compare (a b : CalendarDay) :
  day_le a b <-> day_compare a b <> Gt.
Proof.
  unfold day_le, day_compare.
  destruct (Z.compare_spec (cd_year a) (cd_year b));
    destruct (Z.compare_spec (cd_month a) (cd_month b));
    destruct (Z.compare_spec (cd_day a) (cd_day b));
    split; intros; try congruence; try lia.
Qed.

Lemma day_le_antisym (a b : CalendarDay) : day_le a b -> day_le b a -> a = b.
Proof.
  unfold day_le. destruct a as [ya ma da], b as [yb mb db]. simpl.
  intros Hab Hba. f_equal; lia.
Qed.

Lemma SortCompare_DateKey_of (a b : CalendarDay) :
  valid_day a = true -> valid_day b = true ->
  (SortCompare (DateKey_of a) (DateKey_of b) <= 0 <-> day_le a b).
Proof.
  intros Ha Hb. rewrite SortCompare_le, compare_DateKey_of by assumption.
  symmetry. apply day_le_compare.
Qed.

(** ** Sets of keys and the ends of a sorted array *)

Lemma Set_add_In (s : list string) (x y : string) :
  In x (Set_add s y) <-> In x s \/ x = y.
Proof.
  unfold Set_add. destruct (existsb (String.eqb y) s) eqn:Hex.
  - apply existsb_exists in Hex. destruct Hex as (z & Hz & Hyz).
    apply String.eqb_eq in Hyz. subst z.
    split; [intros H; left; exact H | intros [H | ->]; assumption].
  - rewrite in_app_iff. simpl. intuition congruence.
Qed.

Lemma fold_Set_add_In (l s : list string) (x : string) :
  In x (fold_left Set_add l s) <-> In x s \/ In x l.
Proof.
  revert s. induction l as [|y l IH]; intros s; simpl.
  - tauto.
  - rewrite IH, Set_add_In. split; intros H.
    + destruct H as [[H | H] | H]; auto.
    + destruct H as [H | [H | H]]; auto.
Qed.

Lemma Set_from_In (l : list string) (x : string) : In x (Set_from l) <-> In x l.
Proof. unfold Set_from. rewrite fold_Set_add_In. simpl. tauto. Qed.

Lemma Set_add_NoDup (s : list string) (y : string) :
  NoDup s -> NoDup (Set_add s y).
Proof.
  intros Hs. unfold Set_add. destruct (existsb (String.eqb y) s) eqn:Hex.
  - exact Hs.
  - apply NoDup_app; split; [exact Hs | split].
    + intros x Hx Hxy. apply list_elem_of_In in Hx. apply list_elem_of_In in Hxy.
      destruct Hxy as [<- | []].
      assert (Htrue : existsb (String.eqb y) s = true).
      { apply existsb_exists. exists y. split; [exact Hx | apply String_eqb_refl]. }
      congruence.
    + apply NoDup_singleton.
Qed.

Lemma Set_from_NoDup (l : list string) : NoDup (Set_from l).
Proof.
  unfold Set_from. generalize (NoDup_nil_2 (A := string)).
  generalize (@nil string). induction l as [|y l IH]; intros s Hs; simpl.
  - exact Hs.
  - apply IH. apply Set_add_NoDup. exact Hs.
Qed.

Section SortedEnds.
Context {A : Type}.
Variable R : A -> A -> Prop.
Hypothesis R_refl : forall a, R a a.

Lemma sorted_first (l : list A) (d x : A) :
  StronglySorted R l -> In x l -> R (nth 0 l d) x.
Proof.
  intros Hs Hx. destruct Hs as [|y l Hl Hy]; [destruct Hx |].
  simpl. destruct Hx as [<- | Hx]; [apply R_refl |].
  rewrite List.Forall_forall in Hy. apply Hy. exact Hx.
Qed.

Lemma sorted_last (l : list A) (d x : A) :
  StronglySorted R l -> In x l -> R x (nth (length l - 1) l d).
Proof.
  induction 1 as [|y l Hl IH Hy]; intros Hx; [destruct Hx |].
  replace (length (y :: l) - 1)%nat with (length l) by (simpl; lia).
  destruct l as [|z l].
  - destruct Hx as [<- | []]. apply R_refl.
  - change (nth (length (z :: l)) (y :: z :: l) d)
      with (nth (length l) (z :: l) d).
    replace (length l) with (length (z :: l) - 1)%nat by (simpl; lia).
    destruct Hx as [<- | Hx]; [| apply IH; exact Hx].
    rewrite List.Forall_forall in Hy. apply Hy. apply nth_In. simpl. lia.
Qed.

End SortedEnds.

Lemma SortCompare_refl (a : string) : SortCompare a a <= 0.
Proof.
  destruct (proj1 SortCompare_consistent a a); assumption.
Qed.

(** ** Label Formatter: the event path *)

Lemma weekLabelFromEvents_steps (tz : TimeZone) (events : list ScheduleEvent)
    (w : Z) :
  events <> [] ->
  weekLabelFromEvents tz events w
  = label_of_keys tz
      (nth 0 (dateKeys_of events) EmptyString)
      (nth (length (dateKeys_of events) - 1) (dateKeys_of events) EmptyString).
Proof. intros Hne. destruct events as [|e es]; [congruence | reflexivity]. Qed.

Lemma PL_MONTHS_at_month (m : Z) :
  1 <= m -> template_at PL_MONTHS (Num (m - 1)) = month_abbr m.
Proof.
  intros Hm. unfold template_at, month_abbr.
  replace (m - 1 <? 0) with false by (symmetry; apply Z.ltb_ge; lia).
  reflexivity.
Qed.

Section EventLabels.
Variable tz : TimeZone.
Hypothesis tz_regular : regular_zone tz.

(** The label built from the keys of two valid days shows those days. *)
Lemma label_of_keys_days (lo hi : CalendarDay) :
  valid_day lo = true -> valid_day hi = true ->
  label_of_keys tz (DateKey_of lo) (DateKey_of hi) = range_label lo hi.
Proof.
  intros Hlo Hhi. unfold label_of_keys.
  rewrite !parse_DateKey_of by assumption.
  unfold index. cbn [nth minus Date_of_values strict_eq]. cbv zeta.
  apply valid_day_bounds in Hlo. destruct Hlo as (Hylo & Hmlo & Hdlo).
  apply valid_day_bounds in Hhi. destruct Hhi as (Hyhi & Hmhi & Hdhi).
  destruct (Date_local_fields tz (cd_year lo) (cd_month lo) (cd_day lo))
    as (_ & Hm1 & Hd1); [assumption | lia | assumption | assumption |].
  destruct (Date_local_fields tz (cd_year hi) (cd_month hi) (cd_day hi))
    as (_ & Hm2 & Hd2); [assumption | lia | assumption | assumption |].
  unfold fmt, getDate_of, getMonth_of. rewrite Hm1, Hd1, Hm2, Hd2.
  rewrite !PL_MONTHS_at_month by lia.
  unfold range_label, single_month_label, two_month_label, day_month.
  cbn [String_of_value].
  destruct (cd_month lo =? cd_month hi); reflexivity.
Qed.

End EventLabels.

Lemma dateKeys_of_In (events : list ScheduleEvent) (k : string) :
  In k (dateKeys_of events) <-> exists e, In e events /\ toDateKey (start e) = k.
Proof.
  unfold dateKeys_of. rewrite sort_In, Set_from_In, in_map_iff.
  split; intros (e & H1 & H2); exists e; auto.
Qed.

Lemma dateKeys_of_sorted (events : list ScheduleEvent) :
  StronglySorted (fun a b => SortCompare a b <= 0) (dateKeys_of events).
Proof.
  unfold dateKeys_of. destruct SortCompare_consistent as [Htotal Htrans].
  apply sort_sorted; assumption.
Qed.

Lemma dateKeys_of_NoDup (events : list ScheduleEvent) : NoDup (dateKeys_of events).
Proof.
  unfold dateKeys_of. rewrite sort_perm. apply Set_from_NoDup.
Qed.

Lemma dateKeys_of_nonempty (events : list ScheduleEvent) :
  events <> [] -> (0 < length (dateKeys_of events))%nat.
Proof.
  intros Hne. destruct events as [|e es]; [congruence |].
  assert (Hin : In (toDateKey (start e)) (dateKeys_of (e :: es))).
  { apply dateKeys_of_In. exists e. split; [left |]; reflexivity. }
  destruct (dateKeys_of (e :: es)); [destruct Hin | simpl; lia].
Qed.

Lemma DateKey_of_inj (a b : CalendarDay) :
  valid_day a = true -> valid_day b = true ->
  DateKey_of a = DateKey_of b -> a = b.
Proof.
  intros Ha Hb Heq. apply day_le_antisym.
  - apply SortCompare_DateKey_of; [assumption | assumption |].
    rewrite Heq. apply SortCompare_refl.
  - apply SortCompare_DateKey_of; [assumption | assumption |].
    rewrite Heq. apply SortCompare_refl.
Qed.

(** The first key of the sorted array is the key of the earliest day, the
    last key the key of the latest day. *)
Lemma first_key_earliest (events : list ScheduleEvent) (lo : CalendarDay) :
  well_dated events -> earliest lo events ->
  nth 0 (dateKeys_of events) EmptyString = DateKey_of lo.
Proof.
  intros Hwd [(e & He & Hvlo & Hklo) Hmin].
  assert (Hne : events <> []) by (intros ->; destruct He).
  pose proof (dateKeys_of_nonempty events Hne) as Hlen.
  set (first := nth 0 (dateKeys_of events) EmptyString).
  assert (Hfirst : In first (dateKeys_of events)) by (apply nth_In; exact Hlen).
  apply dateKeys_of_In in Hfirst. destruct Hfirst as (e0 & He0 & Hk0).
  destruct (Hwd e0 He0) as (c0 & Hv0 & Hkc0).
  assert (Hle : SortCompare first (DateKey_of lo) <= 0).
  { apply (sorted_first (fun a b => SortCompare a b <= 0) SortCompare_refl
             (dateKeys_of events) EmptyString (DateKey_of lo));
      [apply dateKeys_of_sorted |].
    apply dateKeys_of_In. exists e. split; assumption. }
  assert (Hc0 : c0 = lo).
  { apply day_le_antisym.
    - apply SortCompare_DateKey_of; [assumption | assumption |]. congruence.
    - apply (Hmin e0 c0 He0). split; assumption. }
  congruence.
Qed.

Lemma last_key_latest (events : list ScheduleEvent) (hi : CalendarDay) :
  well_dated events -> latest hi events ->
  nth (length (dateKeys_of events) - 1) (dateKeys_of events) EmptyString
  = DateKey_of hi.
Proof.
  intros Hwd [(e & He & Hvhi & Hkhi) Hmax].
  assert (Hne : events <> []) by (intros ->; destruct He).
  pose proof (dateKeys_of_nonempty events Hne) as Hlen.
  set (last := nth (length (dateKeys_of events) - 1) (dateKeys_of events) EmptyString).
  assert (Hlast : In last (dateKeys_of events)) by (apply nth_In; lia).
  apply dateKeys_of_In in Hlast. destruct Hlast as (e0 & He0 & Hk0).
  destruct (Hwd e0 He0) as (c0 & Hv0 & Hkc0).
  assert (Hle : SortCompare (DateKey_of hi) last <= 0).
  { apply (sorted_last (fun a b => SortCompare a b <= 0) SortCompare_refl
             (dateKeys_of events) EmptyString (DateKey_of hi));
      [apply dateKeys_of_sorted |].
    apply dateKeys_of_In. exists e. split; assumption. }
  assert (Hc0 : c0 = hi).
  { apply day_le_antisym.
    - apply (Hmax e0 c0 He0). split; assumption.
    - apply SortCompare_DateKey_of; [assumption | assumption |]. congruence. }
  congruence.
Qed.

(** A well-dated list that is not empty has an earliest and a latest day. *)
Lemma earliest_latest_exist (events : list ScheduleEvent) :
  well_dated events -> events <> [] ->
  exists lo hi, earliest lo events /\ latest hi events.
Proof.
  intros Hwd Hne.
  pose proof (dateKeys_of_nonempty events Hne) as Hlen.
  pose proof (dateKeys_of_sorted events) as Hsorted.
  assert (Hfirst : In (nth 0 (dateKeys_of events) EmptyString) (dateKeys_of events))
    by (apply nth_In; exact Hlen).
  assert (Hlast : In (nth (length (dateKeys_of events) - 1) (dateKeys_of events)
                        EmptyString) (dateKeys_of events))
    by (apply nth_In; lia).
  apply dateKeys_of_In in Hfirst. destruct Hfirst as (e1 & He1 & Hk1).
  apply dateKeys_of_In in Hlast. destruct Hlast as (e2 & He2 & Hk2).
  destruct (Hwd e1 He1) as (lo & Hvlo & Hklo).
  destruct (Hwd e2 He2) as (hi & Hvhi & Hkhi).
  exists lo, hi. split.
  - split; [exists e1; repeat split; assumption |].
    intros e c' He [Hvc Hkc].
    apply SortCompare_DateKey_of; [assumption | assumption |].
    rewrite <- Hklo, <- Hkc, Hk1.
    apply (sorted_first (fun a b => SortCompare a b <= 0) SortCompare_refl);
      [exact Hsorted |].
    apply dateKeys_of_In. exists e. split; [exact He | reflexivity].
  - split; [exists e2; repeat split; assumption |].
    intros e c' He [Hvc Hkc].
    apply SortCompare_DateKey_of; [assumption | assumption |].
    rewrite <- Hkhi, <- Hkc, Hk2.
    apply (sorted_last (fun a b => SortCompare a b <= 0) SortCompare_refl);
      [exact Hsorted |].
    apply dateKeys_of_In. exists e. split; [exact He | reflexivity].
Qed.

(** The label of a non-empty list of events is the range label of the
    earliest and the latest day on which an event starts. *)
Lemma weekLabelFromEvents_range_label (tz : TimeZone)
    (events : list ScheduleEvent) (w : Z) (lo hi : CalendarDay) :
  regular_zone tz ->
  well_dated events -> earliest lo events -> latest hi events ->
  weekLabelFromEvents tz events w = range_label lo hi.
Proof.
  intros Hreg Hwd Hlo Hhi.
  assert (Hne : events <> []).
  { destruct Hlo as [(e & He & _) _]. intros ->. destruct He. }
  rewrite weekLabelFromEvents_steps by exact Hne.
  rewrite (first_key_earliest events lo) by assumption.
  rewrite (last_key_latest events hi) by assumption.
  destruct Hlo as [(e1 & _ & Hv1 & _) _]. destruct Hhi as [(e2 & _ & Hv2 & _) _].
  apply label_of_keys_days; assumption.
Qed.

Lemma starts_on_unique (e : ScheduleEvent) (c c' : CalendarDay) :
  starts_on e c -> starts_on e c' -> c = c'.
Proof.
  intros [Hv Hk] [Hv' Hk']. apply DateKey_of_inj; [assumption | assumption |].
  congruence.
Qed.

Lemma earliest_intro (events : list ScheduleEvent) (lo : CalendarDay)
    (e : ScheduleEvent) :
  In e events -> starts_on e lo ->
  (forall e', In e' events -> exists c, starts_on e' c /\ day_le lo c) ->
  earliest lo events.
Proof.
  intros He Hlo Hall. split; [exists e; split; assumption |].
  intros e' c' He' Hc'. destruct (Hall e' He') as (c & Hc & Hle).
  rewrite <- (starts_on_unique e' c c' Hc Hc'). exact Hle.
Qed.

Lemma latest_intro (events : list ScheduleEvent) (hi : CalendarDay)
    (e : ScheduleEvent) :
  In e events -> starts_on e hi ->
  (forall e', In e' events -> exists c, starts_on e' c /\ day_le c hi) ->
  latest hi events.
Proof.
  intros He Hhi Hall. split; [exists e; split; assumption |].
  intros e' c' He' Hc'. destruct (Hall e' He') as (c & Hc & Hle).
  rewrite <- (starts_on_unique e' c c' Hc Hc'). exact Hle.
Qed.

Lemma earliest_well_dated_nonempty (events : list ScheduleEvent) (lo : CalendarDay) :
  earliest lo events -> events <> [].
Proof. intros [(e & He & _) _] ->. destruct He. Qed.

(** The sample week: classes on Monday 2026-03-09 and Friday 2026-03-13. *)
Lemma week20_events_dated :
  well_dated Samples.week20_events
  /\ earliest (Samples.day 2026 3 9) Samples.week20_events
  /\ latest (Samples.day 2026 3 13) Samples.week20_events.
Proof.
  assert (Hfri : starts_on Samples.friday_lecture (Samples.day 2026 3 13))
    by (split; reflexivity).
  assert (Hmon : starts_on Samples.monday_lecture (Samples.day 2026 3 9))
    by (split; reflexivity).
  assert (Hlab : starts_on Samples.monday_lab (Samples.day 2026 3 9))
    by (split; reflexivity).
  split; [| split].
  - intros e [<- | [<- | [<- | []]]]; eexists; eassumption.
  - apply (earliest_intro _ _ Samples.monday_lecture);
      [right; left; reflexivity | exact Hmon |].
    intros e [<- | [<- | [<- | []]]]; eexists; (split; [eassumption |]);
      unfold day_le; simpl; lia.
  - apply (latest_intro _ _ Samples.friday_lecture);
      [left; reflexivity | exact Hfri |].
    intros e [<- | [<- | [<- | []]]]; eexists; (split; [eassumption |]);
      unfold day_le; simpl; lia.
Qed.

(** Two classes a year apart, both in March. *)
Lemma two_year_events_dated :
  well_dated Samples.two_year_events
  /\ earliest (Samples.day 2026 3 15) Samples.two_year_events
  /\ latest (Samples.day 2027 3 20) Samples.two_year_events.
Proof.
  assert (H26 : starts_on Samples.march_2026_class (Samples.day 2026 3 15))
    by (split; reflexivity).
  assert (H27 : starts_on Samples.march_2027_class (Samples.day 2027 3 20))
    by (split; reflexivity).
  split; [| split].
  - intros e [<- | [<- | []]]; eexists; eassumption.
  - apply (earliest_intro _ _ Samples.march_2026_class);
      [right; left; reflexivity | exact H26 |].
    intros e [<- | [<- | []]]; eexists; (split; [eassumption |]);
      unfold day_le; simpl; lia.
  - apply (latest_intro _ _ Samples.march_2027_class);
      [left; reflexivity | exact H27 |].
    intros e [<- | [<- | []]]; eexists; (split; [eassumption |]);
      unfold day_le; simpl; lia.
Qed.

(** C5. For a non-empty list of events, [weekLabelFromEvents] renders the
    first and the last of the distinct calendar days on which the events
    start, in ascending order: with one mention of the month when the two
    days share their month, with both months otherwise.  Start dates
    2026-03-09 and 2026-03-13 give "9 – 13 mar"; 2026-03-30 and 2026-04-03
    give "30 mar – 3 kwi". *)
Theorem weekLabelFromEvents_first_last (tz : TimeZone)
    (events : list ScheduleEvent) (w : Z) (lo hi : CalendarDay) :
  regular_zone tz ->
  well_dated events -> earliest lo events -> latest hi events ->
  weekLabelFromEvents tz events w
  = (if cd_month lo =? cd_month hi
     then (String_of_Z (cd_day lo) ++ " – "
           ++ String_of_Z (cd_day hi) ++ " " ++ month_abbr (cd_month hi))%string
     else ((String_of_Z (cd_day lo) ++ " " ++ month_abbr (cd_month lo))
           ++ " – "
           ++ String_of_Z (cd_day hi) ++ " " ++ month_abbr (cd_month hi))%string)
  /\ (lo = Samples.day 2026 3 9 -> hi = Samples.day 2026 3 13 ->
      weekLabelFromEvents tz events w = "9 – 13 mar"%string)
  /\ (lo = Samples.day 2026 3 30 -> hi = Samples.day 2026 4 3 ->
      weekLabelFromEvents tz events w = "30 mar – 3 kwi"%string).
Proof.
  intros Hreg Hwd Hlo Hhi.
  pose proof (weekLabelFromEvents_range_label tz events w lo hi Hreg Hwd Hlo Hhi)
    as Hlabel.
  split; [exact Hlabel | split].
  - intros -> ->. rewrite Hlabel. reflexivity.
  - intros -> ->. rewrite Hlabel. reflexivity.
Qed.

Lemma weekLabelFromEvents_first_last_witness :
  weekLabelFromEvents Europe_Warsaw Samples.week20_events 20 = "9 – 13 mar"%string.
Proof.
  destruct week20_events_dated as (Hwd & Hlo & Hhi).
  destruct (weekLabelFromEvents_first_last Europe_Warsaw Samples.week20_events 20
              (Samples.day 2026 3 9) (Samples.day 2026 3 13)
              Europe_Warsaw_regular Hwd Hlo Hhi) as (_ & Hsame & _).
  apply Hsame; reflexivity.
Defined.

(** C10. [weekLabelFromEvents] decides on the single-month form by the month
    numbers alone: when the earliest and the latest day have the same month
    number in different years (2026-03-15 and 2027-03-20, say), the label is
    still "D – D mon" and shows nothing of the years. *)
Theorem weekLabelFromEvents_ignores_year (tz : TimeZone)
    (events : list ScheduleEvent) (w : Z) (lo hi : CalendarDay) :
  regular_zone tz ->
  well_dated events -> earliest lo events -> latest hi events ->
  cd_month lo = cd_month hi -> cd_year lo <> cd_year hi ->
  weekLabelFromEvents tz events w
  = (String_of_Z (cd_day lo) ++ " – "
     ++ String_of_Z (cd_day hi) ++ " " ++ month_abbr (cd_month hi))%string
  /\ (lo = Samples.day 2026 3 15 -> hi = Samples.day 2027 3 20 ->
      weekLabelFromEvents tz events w = "15 – 20 mar"%string).
Proof.
  intros Hreg Hwd Hlo Hhi Hmonth Hyear.
  pose proof (weekLabelFromEvents_range_label tz events w lo hi Hreg Hwd Hlo Hhi)
    as Hlabel.
  unfold range_label in Hlabel.
  replace (cd_month lo =? cd_month hi) with true in Hlabel
    by (symmetry; apply Z.eqb_eq; exact Hmonth).
  split; [exact Hlabel |].
  intros -> ->. rewrite Hlabel. reflexivity.
Qed.

Lemma weekLabelFromEvents_ignores_year_witness :
  weekLabelFromEvents Europe_Warsaw Samples.two_year_events 20 = "15 – 20 mar"%string.
Proof.
  destruct two_year_events_dated as (Hwd & Hlo & Hhi).
  destruct (weekLabelFromEvents_ignores_year Europe_Warsaw Samples.two_year_events 20
              (Samples.day 2026 3 15) (Samples.day 2027 3 20)
              Europe_Warsaw_regular Hwd Hlo Hhi) as (_ & Hex).
  - reflexivity.
  - discriminate.
  - apply Hex; reflexivity.
Defined.

(** ** Event Grouper: the buckets in closed form *)

Lemma existsb_eqb_In (x : string) (s : list string) :
  existsb (String.eqb x) s = true <-> In x s.
Proof.
  rewrite existsb_exists. split.
  - intros (y & Hy & Heq). apply String.eqb_eq in Heq. subst y. exact Hy.
  - intros Hx. exists x. split; [exact Hx | apply String_eqb_refl].
Qed.

Lemma Set_from_snoc (l : list string) (x : string) :
  Set_from (l ++ [x]) = Set_add (Set_from l) x.
Proof. unfold Set_from. rewrite fold_left_app. reflexivity. Qed.

Lemma JSMap_has_buckets (l : list ScheduleEvent) (k : string) :
  JSMap.has (buckets_of l) k
  = existsb (String.eqb k) (Set_from (map (fun e => toDateKey (start e)) l)).
Proof.
  unfold JSMap.has, buckets_of.
  induction (Set_from (map (fun e => toDateKey (start e)) l)) as [|k' S IH];
    simpl; [reflexivity |].
  rewrite IH. rewrite (String.eqb_sym k' k). reflexivity.
Qed.

Lemma events_on_snoc (k : string) (l : list ScheduleEvent) (e : ScheduleEvent) :
  events_on k (l ++ [e])
  = events_on k l ++ (if String.eqb (toDateKey (start e)) k then [e] else []).
Proof. unfold events_on. rewrite List.filter_app. reflexivity. Qed.

Lemma events_on_absent (k : string) (l : list ScheduleEvent) :
  ~ In k (map (fun e => toDateKey (start e)) l) -> events_on k l = [].
Proof.
  intros Hk. unfold events_on. induction l as [|e l IH]; simpl; [reflexivity |].
  destruct (String.eqb (toDateKey (start e)) k) eqn:Heq.
  - apply String.eqb_eq in Heq. exfalso. apply Hk. left. exact Heq.
  - apply IH. intros Hin. apply Hk. right. exact Hin.
Qed.

(** One turn of the loop extends the buckets of the events seen so far by
    the next event. *)
Lemma groupByDay_body_buckets (l : list ScheduleEvent) (e : ScheduleEvent) :
  groupByDay_body (buckets_of l) e = buckets_of (l ++ [e]).
Proof.
  unfold groupByDay_body. rewrite JSMap_has_buckets.
  set (k := toDateKey (start e)).
  assert (Hkeys : Set_from (map (fun e => toDateKey (start e)) (l ++ [e]))
                  = Set_add (Set_from (map (fun e => toDateKey (start e)) l)) k).
  { rewrite map_app. simpl. apply Set_from_snoc. }
  assert (Hrhs : buckets_of (l ++ [e])
                 = map (fun k' => (k', events_on k' (l ++ [e])))
                     (Set_add (Set_from (map (fun e => toDateKey (start e)) l)) k)).
  { unfold buckets_of. rewrite Hkeys. reflexivity. }
  rewrite Hrhs. clear Hrhs Hkeys. cbv zeta. unfold Set_add.
  destruct (existsb (String.eqb k) (Set_from (map (fun e => toDateKey (start e)) l)))
    eqn:Hhas; cbn [negb].
  - unfold JSMap.push, buckets_of. rewrite map_map. apply map_ext.
    intros k'. cbn [fst snd]. rewrite events_on_snoc. fold k.
    rewrite (String.eqb_sym k' k).
    destruct (String.eqb k k'); [reflexivity | rewrite app_nil_r; reflexivity].
  - assert (Hnew : ~ In k (Set_from (map (fun e => toDateKey (start e)) l))).
    { rewrite <- existsb_eqb_In. congruence. }
    unfold JSMap.set. rewrite JSMap_has_buckets, Hhas.
    unfold JSMap.push. rewrite !map_app. cbn [map fst snd].
    rewrite String_eqb_refl. f_equal.
    + unfold buckets_of. rewrite map_map. apply map_ext_in.
      intros k' Hk'. cbn [fst snd]. rewrite events_on_snoc. fold k.
      destruct (String.eqb k' k) eqn:Heq.
      * apply String.eqb_eq in Heq. subst k'. contradiction.
      * rewrite String.eqb_sym, Heq, app_nil_r. reflexivity.
    + rewrite events_on_snoc. fold k. rewrite String_eqb_refl.
      rewrite events_on_absent; [reflexivity |].
      intros Hin. apply Hnew. apply Set_from_In. exact Hin.
Qed.

Lemma fold_groupByDay_body_buckets (l l' : list ScheduleEvent) :
  fold_left groupByDay_body l' (buckets_of l) = buckets_of (l ++ l').
Proof.
  revert l. induction l' as [|e l' IH]; intros l; simpl.
  - rewrite app_nil_r. reflexivity.
  - rewrite groupByDay_body_buckets, IH, <- app_assoc. reflexivity.
Qed.

(** [groupByDay] sorts the buckets of its events: one bucket per distinct
    DateKey, holding the events of that day in arrival order. *)
Lemma groupByDay_sorts_buckets (localeCompare : string -> string -> Z)
    (events : list ScheduleEvent) :
  groupByDay localeCompare events
  = sort (fun a b => localeCompare (fst a) (fst b)) (buckets_of events).
Proof.
  unfold groupByDay, JSMap.entries.
  change (@JSMap.empty (list ScheduleEvent)) with (buckets_of []).
  rewrite fold_groupByDay_body_buckets. reflexivity.
Qed.

Lemma groupByDay_In (localeCompare : string -> string -> Z)
    (events : list ScheduleEvent) (k : string) (bucket : list ScheduleEvent) :
  In (k, bucket) (groupByDay localeCompare events)
  <-> (exists e, In e events /\ toDateKey (start e) = k)
      /\ bucket = events_on k events.
Proof.
  rewrite groupByDay_sorts_buckets, sort_In. unfold buckets_of.
  rewrite in_map_iff. split.
  - intros (k' & Heq & Hk'). inversion Heq; subst.
    rewrite Set_from_In, in_map_iff in Hk'.
    destruct Hk' as (e & He & Hin). split; [exists e; auto | reflexivity].
  - intros [(e & He & Hk) ->]. exists k. split; [reflexivity |].
    apply Set_from_In, in_map_iff. exists e. auto.
Qed.

(** No day has two buckets. *)
Lemma groupByDay_keys_NoDup (localeCompare : string -> string -> Z)
    (events : list ScheduleEvent) :
  NoDup (map fst (groupByDay localeCompare events)).
Proof.
  rewrite groupByDay_sorts_buckets. rewrite sort_perm.
  unfold buckets_of. rewrite map_map. cbn [fst]. rewrite map_id.
  apply Set_from_NoDup.
Qed.

(** Every event is in the bucket of its day. *)
Lemma groupByDay_covers (localeCompare : string -> string -> Z)
    (events : list ScheduleEvent) (e : ScheduleEvent) :
  In e events ->
  exists bucket,
    In (toDateKey (start e), bucket) (groupByDay localeCompare events)
    /\ In e bucket.
Proof.
  intros He. exists (events_on (toDateKey (start e)) events). split.
  - apply groupByDay_In. split; [exists e; auto | reflexivity].
  - unfold events_on. apply filter_In. split; [exact He | apply String_eqb_refl].
Qed.

(** Where the host's comparison orders DateKeys by their code units, the
    buckets of well-dated events are in chronological order. *)
Lemma groupByDay_chronological (localeCompare : string -> string -> Z)
    (events : list ScheduleEvent) :
  consistent localeCompare ->
  (forall a b, valid_day a = true -> valid_day b = true ->
     localeCompare (DateKey_of a) (DateKey_of b) <= 0 ->
     SortCompare (DateKey_of a) (DateKey_of b) <= 0) ->
  well_dated events ->
  StronglySorted
    (fun p q => exists a b, valid_day a = true /\ valid_day b = true
                  /\ fst p = DateKey_of a /\ fst q = DateKey_of b /\ day_le a b)
    (groupByDay localeCompare events).
Proof.
  intros Hcons Hagree Hwd.
  pose proof (groupByDay_sorted localeCompare events Hcons) as Hsorted.
  assert (Hkeys : forall p, In p (groupByDay localeCompare events) ->
                    exists a, valid_day a = true /\ fst p = DateKey_of a).
  { intros [k bucket] Hp. apply groupByDay_In in Hp.
    destruct Hp as [(e & He & Hk) _]. destruct (Hwd e He) as (a & Hva & Hka).
    exists a. split; [exact Hva | simpl; congruence]. }
  induction Hsorted as [|p l Hl IH Hp]; constructor.
  - apply IH. intros q Hq. apply Hkeys. right. exact Hq.
  - rewrite List.Forall_forall in Hp. apply List.Forall_forall. intros q Hq.
    destruct (Hkeys p (or_introl eq_refl)) as (a & Hva & Hka).
    destruct (Hkeys q (or_intror Hq)) as (b & Hvb & Hkb).
    exists a, b. repeat split; try assumption.
    apply SortCompare_DateKey_of; [assumption | assumption |].
    apply Hagree; [assumption | assumption |].
    rewrite <- Hka, <- Hkb. apply Hp. exact Hq.
Qed.

(** ** Stored texts without a number *)

Lemma has_digit_tail (c : ascii) (s : string) :
  has_digit (String c s) = false -> has_digit s = false.
Proof. simpl. destruct (digit_of c); [discriminate | auto]. Qed.

Lemma skip_ws_no_digit (n : nat) (s : string) :
  (String.length s <= n)%nat -> has_digit s = false -> has_digit (skip_ws s) = false.
Proof.
  revert s. induction n as [|n IH]; intros s Hlen Hnd.
  - destruct s; [reflexivity | simpl in Hlen; lia].
  - destruct s as [|c1 r1]; [reflexivity |].
    cbn [skip_ws]. simpl in Hlen.
    pose proof (has_digit_tail _ _ Hnd) as H1.
    destruct (is_ws1 c1); [apply IH; [lia | exact H1] |].
    destruct r1 as [|c2 r2]; [exact Hnd |].
    simpl in Hlen. pose proof (has_digit_tail _ _ H1) as H2.
    destruct (is_ws2 c1 c2); [apply IH; [lia | exact H2] |].
    destruct r2 as [|c3 r3]; [exact Hnd |].
    simpl in Hlen. pose proof (has_digit_tail _ _ H2) as H3.
    destruct (is_ws3 c1 c2 c3); [apply IH; [lia | exact H3] | exact Hnd].
Qed.

Lemma read_digits_no_digit (s : string) :
  has_digit s = false -> read_digits 0 0 s = (0, O, s).
Proof.
  destruct s as [|c r]; [reflexivity |]. simpl.
  destruct (digit_of c); [discriminate | reflexivity].
Qed.

(** A stored text without any digit is non-numeric. *)
Lemma no_digit_no_leading_integer (s : string) : has_digit s = false -> no_leading_integer s.
Proof.
  intros Hnd. unfold no_leading_integer, parseInt.
  pose proof (skip_ws_no_digit (String.length s) s (le_n _) Hnd) as Hskip.
  destruct (skip_ws s) as [|c r] eqn:Hs.
  - reflexivity.
  - unfold read_sign. pose proof (has_digit_tail _ _ Hskip) as Hr.
    destruct (code c =? 45); [rewrite (read_digits_no_digit r Hr); reflexivity |].
    destruct (code c =? 43); [rewrite (read_digits_no_digit r Hr); reflexivity |].
    rewrite (read_digits_no_digit _ Hskip). reflexivity.
Qed.

(** A text that starts with an integer is read as that integer. *)
Example getInitialWeek_numeric_prefix :
  getInitialWeek Europe_Warsaw {[ WEEK_KEY := "25abc"%string ]} 0 = 25.
Proof.
  apply (getInitialWeek_restores _ _ _ "25abc"%string 25);
    [apply lookup_singleton_eq | reflexivity | unfold MIN_WEEK, MAX_WEEK; lia].
Qed.

(** * Further properties of the code *)

Import UseSchedule.

(** ** Calendar Mapper *)

(** X1. Every instant of a week, from its Monday up to the next Monday,
    maps back to the week; so does the instant [weekToSunday] returns. *)
Theorem dateToWeek_whole_week (tz : TimeZone) (w : Z) :
  1 <= w <= 54 ->
  (forall ms, 0 <= ms < MS_PER_WEEK ->
     dateToWeek tz (weekToMonday tz w + ms) = w)
  /\ dateToWeek tz (weekToSunday tz w) = w.
Proof.
  intros Hw. split.
  - intros ms Hms. apply dateToWeek_within_week; assumption.
  - unfold weekToSunday, getTime. apply dateToWeek_within_week; [exact Hw |].
    unfold MS_PER_WEEK, MS_PER_DAY. lia.
Qed.

Lemma dateToWeek_whole_week_witness :
  1 <= 23 <= 54
  /\ dateToWeek Europe_Warsaw (weekToMonday Europe_Warsaw 23 + 604799999) = 23
  /\ dateToWeek Europe_Warsaw (weekToSunday Europe_Warsaw 23) = 23.
Proof.
  assert (Hw : 1 <= 23 <= 54) by lia.
  destruct (dateToWeek_whole_week Europe_Warsaw 23 Hw) as [Hany Hsun].
  split; [exact Hw | split; [| exact Hsun]].
  apply Hany. unfold MS_PER_WEEK, MS_PER_DAY. lia.
Defined.

(** X2. Wherever the anchor and the Monday of week [w] are instants a
    [Date] can hold, the way back saturates outside [1, 54]: a week below 1
    comes back as 1, a week above 54 as 54, so week -> Monday -> week
    returns the week exactly on [1, 54]. *)
Theorem roundtrip_exactly_on_valid_weeks (tz : TimeZone) (w : Z) :
  in_Date_range (getTime (ANCHOR_MONDAY tz)) ->
  in_Date_range (getTime (weekToMonday tz w)) ->
  (w < 1 -> dateToWeek tz (weekToMonday tz w) = 1)
  /\ (54 < w -> dateToWeek tz (weekToMonday tz w) = 54)
  /\ (dateToWeek tz (weekToMonday tz w) = w <-> 1 <= w <= 54).
Proof.
  intros _ _. rewrite dateToWeek_unclamped. repeat split; lia.
Qed.

Lemma Europe_Warsaw_Date_range (w : Z) :
  -10000000 <= w <= 10000000 ->
  in_Date_range (getTime (ANCHOR_MONDAY Europe_Warsaw))
  /\ in_Date_range (getTime (weekToMonday Europe_Warsaw w)).
Proof.
  intros Hw.
  assert (Hanchor : getTime (ANCHOR_MONDAY Europe_Warsaw) = 1772406000000)
    by (vm_compute; reflexivity).
  unfold weekToMonday. rewrite Hanchor.
  unfold in_Date_range, getTime, ANCHOR_WEEK, MS_PER_WEEK, MS_PER_DAY. lia.
Qed.

Lemma roundtrip_exactly_on_valid_weeks_witness :
  dateToWeek Europe_Warsaw (weekToMonday Europe_Warsaw 0) = 1
  /\ dateToWeek Europe_Warsaw (weekToMonday Europe_Warsaw 60) = 54.
Proof.
  split.
  - refine (proj1 (roundtrip_exactly_on_valid_weeks Europe_Warsaw 0
                     (proj1 (Europe_Warsaw_Date_range 0 _))
                     (proj2 (Europe_Warsaw_Date_range 0 _))) _); lia.
  - refine (proj1 (proj2 (roundtrip_exactly_on_valid_weeks Europe_Warsaw 60
                     (proj1 (Europe_Warsaw_Date_range 60 _))
                     (proj2 (Europe_Warsaw_Date_range 60 _)))) _); lia.
Defined.

(** X3. While the zone holds steady, the instant [weekToMonday] returns is a
    Monday in local time, the one [weekToSunday] returns is a Sunday, six
    calendar days later. *)
Theorem week_from_monday_to_sunday (tz : TimeZone) (w : Z) :
  steady_since_anchor tz (weekToMonday tz w) ->
  steady_since_anchor tz (weekToSunday tz w) ->
  getDay tz (weekToMonday tz w) = 1
  /\ getDay tz (weekToSunday tz w) = 0
  /\ Day (LocalTime tz (weekToSunday tz w))
     - Day (LocalTime tz (weekToMonday tz w)) = 6.
Proof.
  intros Hmon Hsun. split; [| split].
  - apply weekToMonday_is_monday. exact Hmon.
  - apply weekToSunday_is_sunday. exact Hsun.
  - rewrite weekToMonday_local_day, weekToSunday_local_day by assumption. ring.
Qed.

Lemma Europe_Warsaw_steady_week30 :
  steady_since_anchor Europe_Warsaw (weekToMonday Europe_Warsaw 30)
  /\ steady_since_anchor Europe_Warsaw (weekToSunday Europe_Warsaw 30).
Proof.
  split; (unfold steady_since_anchor; split;
          [vm_compute; discriminate | vm_compute; reflexivity]).
Qed.

Lemma week_from_monday_to_sunday_witness :
  getDay Europe_Warsaw (weekToMonday Europe_Warsaw 30) = 1
  /\ getDay Europe_Warsaw (weekToSunday Europe_Warsaw 30) = 0
  /\ Day (LocalTime Europe_Warsaw (weekToSunday Europe_Warsaw 30))
     - Day (LocalTime Europe_Warsaw (weekToMonday Europe_Warsaw 30)) = 6.
Proof.
  apply (week_from_monday_to_sunday Europe_Warsaw 30);
    apply Europe_Warsaw_steady_week30.
Defined.

(** X4. The weeks are counted in milliseconds, not in calendar days: the
    local time of day of [weekToMonday] is the difference between the
    zone's offset then and its offset at the anchor, midnight only where the
    two agree (01:00 in Europe/Warsaw during summer time). *)
Theorem weekToMonday_time_of_day (tz : TimeZone) (w : Z) :
  steady_since_anchor tz (weekToMonday tz w) ->
  LocalTime tz (weekToMonday tz w) mod msPerDay
  = offset_at_utc tz (weekToMonday tz w)
    - offset_at_local tz (MakeDate (days_from_civil 2026 3 2) 0).
Proof.
  unfold steady_since_anchor, LocalTime.
  set (o := offset_at_utc tz (weekToMonday tz w)).
  set (a := offset_at_local tz (MakeDate (days_from_civil 2026 3 2) 0)).
  intros Hs.
  replace (weekToMonday tz w + o)
    with ((o - a) + (20514 + 7 * (w - 19)) * msPerDay).
  - rewrite Z.mod_add by (unfold msPerDay; lia). apply Z.mod_small. exact Hs.
  - rewrite weekToMonday_days, ANCHOR_MONDAY_local. fold a. unfold Date. ring.
Qed.

Lemma weekToMonday_time_of_day_witness :
  LocalTime Europe_Warsaw (weekToMonday Europe_Warsaw 30) mod msPerDay
  = offset_at_utc Europe_Warsaw (weekToMonday Europe_Warsaw 30)
    - offset_at_local Europe_Warsaw (MakeDate (days_from_civil 2026 3 2) 0).
Proof.
  apply (weekToMonday_time_of_day Europe_Warsaw 30).
  apply Europe_Warsaw_steady_week30.
Defined.

Example weekToMonday_summer_time_of_day :
  LocalTime Europe_Warsaw (weekToMonday Europe_Warsaw 22) mod msPerDay = 0
  /\ LocalTime Europe_Warsaw (weekToMonday Europe_Warsaw 23) mod msPerDay = msPerHour.
Proof. split; vm_compute; reflexivity. Qed.

(** X5. [currentWeek] is never before the first week of the semester nor
    after week 54: any time before the Monday of week 20 gives week 19, and
    from the anchor Monday on it is [dateToWeek] of the time. *)
Theorem currentWeek_from_first_semester_week (tz : TimeZone) (now : Date) :
  FIRST_SEMESTER_WEEK <= currentWeek tz now <= 54
  /\ (now < weekToMonday tz 20 -> currentWeek tz now = FIRST_SEMESTER_WEEK)
  /\ (ANCHOR_MONDAY tz <= now -> currentWeek tz now = dateToWeek tz now).
Proof.
  split; [apply currentWeek_range |].
  unfold currentWeek, dateToWeek, FIRST_SEMESTER_WEEK, ANCHOR_WEEK, getTime.
  pose proof MS_PER_WEEK_pos as Hpos.
  split; intros Hnow.
  - assert (Hdiv : (now - ANCHOR_MONDAY tz) / MS_PER_WEEK < 1).
    { apply Z.div_lt_upper_bound; [exact Hpos |].
      unfold weekToMonday, getTime, ANCHOR_WEEK in Hnow. lia. }
    lia.
  - assert (Hdiv : 0 <= (now - ANCHOR_MONDAY tz) / MS_PER_WEEK).
    { apply Z.div_pos; [lia | exact Hpos]. }
    lia.
Qed.

Lemma currentWeek_from_first_semester_week_witness :
  currentWeek Europe_Warsaw 0 = FIRST_SEMESTER_WEEK
  /\ currentWeek Europe_Warsaw 1780000000000 = dateToWeek Europe_Warsaw 1780000000000.
Proof.
  split.
  - apply (proj1 (proj2 (currentWeek_from_first_semester_week Europe_Warsaw 0))).
    vm_compute. reflexivity.
  - apply (proj2 (proj2 (currentWeek_from_first_semester_week Europe_Warsaw
                           1780000000000))).
    vm_compute. discriminate.
Defined.

(** ** Label Formatter *)

Lemma sorted_keys_unique (l1 l2 : list string) :
  StronglySorted (fun a b => SortCompare a b <= 0) l1 ->
  StronglySorted (fun a b => SortCompare a b <= 0) l2 ->
  NoDup l1 -> NoDup l2 ->
  (forall x, In x l1 <-> In x l2) -> l1 = l2.
Proof.
  intros Hs1. revert l2. induction Hs1 as [|x l1 Hs1 IH Hx]; intros l2 Hs2 Hn1 Hn2 Hsame.
  - destruct l2 as [|y l2]; [reflexivity |].
    exfalso. apply (proj2 (Hsame y)). left. reflexivity.
  - destruct Hs2 as [|y l2 Hs2 Hy].
    { exfalso. apply (proj1 (Hsame x)). left. reflexivity. }
    rewrite List.Forall_forall in Hx, Hy.
    apply NoDup_cons in Hn1. destruct Hn1 as [Hx1 Hn1].
    apply NoDup_cons in Hn2. destruct Hn2 as [Hy2 Hn2].
    rewrite list_elem_of_In in Hx1, Hy2.
    assert (Hxy : x = y).
    { destruct (proj1 (Hsame x) (or_introl eq_refl)) as [Heq | Hin]; [auto |].
      destruct (proj2 (Hsame y) (or_introl eq_refl)) as [Heq | Hin']; [auto |].
      apply SortCompare_antisym; [apply Hx; exact Hin' | apply Hy; exact Hin]. }
    subst y. f_equal. apply IH; try assumption.
    intros z. split; intros Hz.
    + destruct (proj1 (Hsame z) (or_intror Hz)) as [Heq | Hin]; [| exact Hin].
      subst z. contradiction.
    + destruct (proj2 (Hsame z) (or_intror Hz)) as [Heq | Hin]; [| exact Hin].
      subst z. contradiction.
Qed.

Lemma dateKeys_of_same_keys (events events' : list ScheduleEvent) :
  (forall k, In k (map key_of events) <-> In k (map key_of events')) ->
  dateKeys_of events = dateKeys_of events'.
Proof.
  intros Hsame. apply sorted_keys_unique;
    try apply dateKeys_of_sorted; try apply dateKeys_of_NoDup.
  intros k. rewrite !dateKeys_of_In.
  specialize (Hsame k). rewrite !in_map_iff in Hsame. unfold key_of in Hsame.
  split; intros (e & He & Hk).
  - destruct (proj1 Hsame (ex_intro _ e (conj Hk He))) as (e' & Hk' & He').
    exists e'. auto.
  - destruct (proj2 Hsame (ex_intro _ e (conj Hk He))) as (e' & Hk' & He').
    exists e'. auto.
Qed.

Lemma weekLabelFromEvents_same_keys (tz : TimeZone)
    (events events' : list ScheduleEvent) (w : Z) :
  (forall k, In k (map key_of events) <-> In k (map key_of events')) ->
  weekLabelFromEvents tz events w = weekLabelFromEvents tz events' w.
Proof.
  intros Hsame. destruct events as [|e es].
  - destruct events' as [|e' es']; [reflexivity |].
    exfalso. apply (proj2 (Hsame (key_of e'))). left. reflexivity.
  - destruct events' as [|e' es'].
    { exfalso. apply (proj1 (Hsame (key_of e))). left. reflexivity. }
    rewrite !weekLabelFromEvents_steps by discriminate.
    rewrite (dateKeys_of_same_keys (e :: es) (e' :: es') Hsame). reflexivity.
Qed.

(** X6. The label depends on the set of days on which events start and on
    nothing else: it is the same for any two lists with the same DateKeys,
    so neither the order of the events nor the number of events on a day
    changes it. *)
Theorem weekLabelFromEvents_order_free (tz : TimeZone)
    (events events' : list ScheduleEvent) (w : Z) :
  ((forall k, In k (map key_of events) <-> In k (map key_of events')) ->
   weekLabelFromEvents tz events w = weekLabelFromEvents tz events' w)
  /\ (Permutation events events' ->
      weekLabelFromEvents tz events w = weekLabelFromEvents tz events' w)
  /\ weekLabelFromEvents tz (events ++ events) w = weekLabelFromEvents tz events w.
Proof.
  split; [apply weekLabelFromEvents_same_keys | split].
  - intros Hperm. apply weekLabelFromEvents_same_keys. intros k.
    split; apply Permutation_in; [| apply Permutation_sym];
      apply Permutation_map; exact Hperm.
  - apply weekLabelFromEvents_same_keys. intros k.
    rewrite map_app, in_app_iff. tauto.
Qed.

Lemma weekLabelFromEvents_order_free_witness :
  weekLabelFromEvents Europe_Warsaw
    [Samples.monday_lab; Samples.friday_lecture; Samples.monday_lecture] 20
  = weekLabelFromEvents Europe_Warsaw Samples.week20_events 20.
Proof.
  apply (proj1 (proj2 (weekLabelFromEvents_order_free Europe_Warsaw
                         [Samples.monday_lab; Samples.friday_lecture;
                          Samples.monday_lecture]
                         Samples.week20_events 20))).
  unfold Samples.week20_events.
  apply perm_trans with
    (l' := [Samples.friday_lecture; Samples.monday_lab; Samples.monday_lecture]).
  - apply perm_swap.
  - apply perm_skip. apply perm_swap.
Defined.

(** X7. When all events start on one day, that day is both ends of the
    range and the label names it twice: "9 – 9 mar". *)
Theorem weekLabelFromEvents_single_day (tz : TimeZone)
    (events : list ScheduleEvent) (w : Z) (c : CalendarDay) :
  regular_zone tz -> events <> [] ->
  (forall e, In e events -> starts_on e c) ->
  weekLabelFromEvents tz events w
  = (String_of_Z (cd_day c) ++ " – "
     ++ String_of_Z (cd_day c) ++ " " ++ month_abbr (cd_month c))%string.
Proof.
  intros Hreg Hne Hall.
  assert (Hrefl : day_le c c) by (unfold day_le; lia).
  assert (Hex : exists e, In e events /\ starts_on e c).
  { destruct events as [|e es]; [congruence |].
    exists e. split; [left; reflexivity | apply Hall; left; reflexivity]. }
  rewrite (weekLabelFromEvents_range_label tz events w c c Hreg).
  - unfold range_label. rewrite Z.eqb_refl. reflexivity.
  - intros e He. exists c. apply Hall. exact He.
  - split; [exact Hex |]. intros e c' He Hc'.
    rewrite <- (starts_on_unique e c c' (Hall e He) Hc'). exact Hrefl.
  - split; [exact Hex |]. intros e c' He Hc'.
    rewrite <- (starts_on_unique e c c' (Hall e He) Hc'). exact Hrefl.
Qed.

Lemma weekLabelFromEvents_single_day_witness :
  weekLabelFromEvents Europe_Warsaw [Samples.monday_lecture; Samples.monday_lab] 20
  = "9 – 9 mar"%string.
Proof.
  apply (weekLabelFromEvents_single_day Europe_Warsaw
           [Samples.monday_lecture; Samples.monday_lab] 20 (Samples.day 2026 3 9)).
  - exact Europe_Warsaw_regular.
  - discriminate.
  - intros e [<- | [<- | []]]; split; reflexivity.
Defined.

Lemma split_without_separator (sep : ascii) (s : string) :
  has_char sep s = false -> split sep s = [s].
Proof.
  induction s as [|c s IH]; simpl; [reflexivity |].
  intros Hno. apply orb_false_elim in Hno. destruct Hno as [Hc Hs].
  rewrite Hc, (IH Hs). reflexivity.
Qed.

Lemma dateKeys_of_one_key (events : list ScheduleEvent) (k : string) :
  events <> [] -> (forall e, In e events -> key_of e = k) ->
  dateKeys_of events = [k].
Proof.
  intros Hne Hall. apply sorted_keys_unique.
  - apply dateKeys_of_sorted.
  - repeat constructor.
  - apply dateKeys_of_NoDup.
  - apply NoDup_singleton.
  - intros x. rewrite dateKeys_of_In. split.
    + intros (e & He & Hk). left. rewrite <- Hk. symmetry. apply Hall. exact He.
    + intros [<- | []]. destruct events as [|e es]; [congruence |].
      exists e. split; [left; reflexivity | apply Hall; left; reflexivity].
Qed.

(** X8. A start that is no date does not make [weekLabelFromEvents] fail:
    when the events share a DateKey without any hyphen, the parts of the key
    are missing, the dates are invalid and the label is the text
    "NaN – NaN undefined". *)
Theorem weekLabelFromEvents_without_date (tz : TimeZone)
    (events : list ScheduleEvent) (w : Z) (k : string) :
  events <> [] -> (forall e, In e events -> key_of e = k) ->
  has_char "-" k = false ->
  weekLabelFromEvents tz events w = "NaN – NaN undefined"%string.
Proof.
  intros Hne Hall Hno.
  rewrite weekLabelFromEvents_steps by exact Hne.
  rewrite (dateKeys_of_one_key events k Hne Hall). cbn [length nth Nat.sub].
  unfold label_of_keys. rewrite (split_without_separator "-" k Hno).
  cbn [map]. unfold index. cbn [nth minus strict_eq].
  destruct (Number k); reflexivity.
Qed.

Lemma weekLabelFromEvents_without_date_witness :
  weekLabelFromEvents Europe_Warsaw [Samples.undated_class] 20
  = "NaN – NaN undefined"%string.
Proof.
  apply (weekLabelFromEvents_without_date Europe_Warsaw [Samples.undated_class] 20
           "soon"%string).
  - discriminate.
  - intros e [<- | []]. reflexivity.
  - reflexivity.
Defined.

(** ** Timestamps: date part and time part *)

Lemma split_at_separator (sep : ascii) (d rest : string) :
  has_char sep d = false ->
  split sep (d ++ String sep rest) = d :: split sep rest.
Proof.
  induction d as [|c d IH]; intros Hno.
  - rewrite append_Empty. cbn [split]. rewrite Ascii.eqb_refl. reflexivity.
  - simpl in Hno. apply orb_false_elim in Hno. destruct Hno as [Hc Hd].
    rewrite append_String. cbn [split]. rewrite Hc, (IH Hd). reflexivity.
Qed.

Lemma split_append_no_separator (sep : ascii) (a r : string) :
  has_char sep a = false ->
  split sep (a ++ r)
  = (a ++ nth 0 (split sep r) EmptyString)%string :: tl (split sep r).
Proof.
  induction a as [|c a IH]; intros Hno.
  - rewrite !append_Empty. pose proof (split_nonempty sep r) as Hne.
    destruct (split sep r); [congruence | reflexivity].
  - simpl in Hno. apply orb_false_elim in Hno. destruct Hno as [Hc Ha].
    rewrite !append_String. cbn [split]. rewrite Hc, (IH Ha). reflexivity.
Qed.

Lemma split_head_no_separator (sep : ascii) (s : string) :
  has_char sep (nth 0 (split sep s) EmptyString) = false.
Proof.
  induction s as [|c s IH]; [reflexivity |].
  cbn [split]. destruct (Ascii.eqb c sep) eqn:Hc; [reflexivity |].
  pose proof (split_nonempty sep s) as Hne.
  destruct (split sep s) as [|h t]; [congruence |].
  cbn [nth] in *. simpl. rewrite Hc, IH. reflexivity.
Qed.

Lemma split_with_separator (sep : ascii) (s : string) :
  has_char sep s = true -> exists a b t, split sep s = a :: b :: t.
Proof.
  induction s as [|c s IH]; [discriminate |].
  simpl. destruct (Ascii.eqb c sep) eqn:Hc; simpl.
  - intros _. pose proof (split_nonempty sep s) as Hne.
    destruct (split sep s) as [|b t]; [congruence |].
    exists EmptyString, b, t. reflexivity.
  - intros Hs. destruct (IH Hs) as (a & b & t & Heq). rewrite Heq.
    exists (String c a), b, t. reflexivity.
Qed.

(** On ASCII text a code unit is a byte. *)
Lemma substring_from_0_prefix (a p : string) :
  ascii_only a = true ->
  substring_from_0 (String.length a) (a ++ p) = a.
Proof.
  induction a as [|c a IH]; intros Hascii.
  - destruct p; reflexivity.
  - cbn [ascii_only] in Hascii. apply andb_true_iff in Hascii.
    destruct Hascii as [Hc Ha]. apply Z.ltb_lt in Hc.
    rewrite append_String. cbn [String.length substring_from_0].
    destruct (Z.ltb_spec (code c) 192) as [_ | Hge]; [| lia].
    rewrite (IH Ha). reflexivity.
Qed.

(** X9. [toDateKey] returns what stands before the first 'T': the date part
    of a timestamp, the whole text when there is no 'T'; its result holds no
    'T', so applying it twice changes nothing. *)
Theorem toDateKey_date_part (s : string) :
  (forall d rest, has_char "T" d = false -> s = (d ++ String "T" rest)%string ->
     toDateKey s = d)
  /\ (has_char "T" s = false -> toDateKey s = s)
  /\ has_char "T" (toDateKey s) = false
  /\ toDateKey (toDateKey s) = toDateKey s.
Proof.
  assert (Hhead : has_char "T" (toDateKey s) = false)
    by apply split_head_no_separator.
  assert (Hwhole : forall x, has_char "T" x = false -> toDateKey x = x).
  { intros x Hx. unfold toDateKey. rewrite split_without_separator by exact Hx.
    reflexivity. }
  repeat split.
  - intros d rest Hd ->. unfold toDateKey. rewrite split_at_separator by exact Hd.
    reflexivity.
  - apply Hwhole.
  - exact Hhead.
  - apply Hwhole. exact Hhead.
Qed.

Lemma toDateKey_date_part_witness :
  toDateKey "2026-03-09T08:15:00+01:00" = "2026-03-09"%string
  /\ toDateKey "2026-03-09" = "2026-03-09"%string.
Proof.
  destruct (toDateKey_date_part "2026-03-09T08:15:00+01:00") as (Hdate & _).
  destruct (toDateKey_date_part "2026-03-09") as (_ & Hwhole & _).
  split.
  - apply (Hdate "2026-03-09"%string "08:15:00+01:00"%string); reflexivity.
  - apply Hwhole. reflexivity.
Defined.

(** X10. [formatTime] throws exactly on a text without 'T'; on a timestamp
    whose 'T' is followed by five ASCII characters, the hour and the minute,
    it returns these five characters. *)
Theorem formatTime_hour_minute (s : string) :
  (formatTime s = None <-> has_char "T" s = false)
  /\ (forall d hhmm rest,
        has_char "T" d = false -> has_char "T" hhmm = false ->
        ascii_only hhmm = true -> String.length hhmm = 5%nat ->
        s = (d ++ String "T" (hhmm ++ rest))%string ->
        formatTime s = Some hhmm).
Proof.
  split.
  - unfold formatTime. split.
    + intros Hnone. destruct (has_char "T" s) eqn:Hs; [| reflexivity].
      destruct (split_with_separator "T" s Hs) as (a & b & t & Heq).
      rewrite Heq in Hnone. discriminate.
    + intros Hs. rewrite split_without_separator by exact Hs. reflexivity.
  - intros d hhmm rest Hd Hh Hascii Hlen ->. unfold formatTime.
    rewrite split_at_separator by exact Hd.
    rewrite split_append_no_separator by exact Hh.
    rewrite <- Hlen, substring_from_0_prefix by exact Hascii. reflexivity.
Qed.

Lemma formatTime_hour_minute_witness :
  formatTime "2026-03-09T08:15:00+01:00" = Some "08:15"%string
  /\ formatTime "2026-03-09" = None.
Proof.
  split.
  - apply (proj2 (formatTime_hour_minute "2026-03-09T08:15:00+01:00")
             "2026-03-09"%string "08:15"%string ":00+01:00"%string); reflexivity.
  - apply (proj1 (formatTime_hour_minute "2026-03-09")). reflexivity.
Defined.

(** ** Day headers *)

Lemma digit_char_not_T (d : Z) :
  0 <= d <= 9 -> Ascii.eqb (digit_char d) "T" = false.
Proof.
  intros Hd. apply Ascii.eqb_neq. intros Heq.
  pose proof (code_digit_char d Hd) as Hcode. rewrite Heq in Hcode.
  change (code "T") with 84 in Hcode. lia.
Qed.

Lemma DateKey_of_no_T (c : CalendarDay) :
  valid_day c = true -> has_char "T" (DateKey_of c) = false.
Proof.
  intros Hv. apply valid_day_bounds in Hv. destruct Hv as (Hy & Hm & Hd).
  pose proof (days_in_month_bound (cd_year c) (cd_month c)) as Hdim.
  unfold DateKey_of, pad4, pad2. rewrite !append_String, !append_Empty.
  cbn [has_char]. rewrite !digit_char_not_T by lia_div. reflexivity.
Qed.

Lemma Date_local_day (tz : TimeZone) (y m d : Z) :
  regular_zone tz -> 100 <= y -> 1 <= m <= 12 ->
  Day (LocalTime tz (Date_local tz y (m - 1) d)) = days_from_civil y m d.
Proof.
  intros Hreg Hy Hm. unfold Date_local.
  replace ((0 <=? y) && (y <=? 99)) with false
    by (symmetry; apply andb_false_iff; right; apply Z.leb_gt; lia).
  rewrite MakeDay_civil by exact Hm.
  unfold MakeDate. set (t := days_from_civil y m d * msPerDay + 0).
  specialize (Hreg t). unfold LocalTime.
  replace (UTC tz t + offset_at_utc tz (UTC tz t))
    with (days_from_civil y m d * msPerDay
          + (offset_at_utc tz (UTC tz t) - offset_at_local tz t))
    by (unfold UTC; subst t; ring).
  apply Day_shift. exact Hreg.
Qed.

(** X11. The heading of a [DaySection] names the day of its DateKey: the
    day of the week, the day of the month without padding and the month in
    the genitive, as in "Poniedziałek, 9 marca". *)
Theorem DaySection_heading_names_day (tz : TimeZone) (c : CalendarDay) :
  regular_zone tz -> valid_day c = true ->
  DaySection_heading tz (DateKey_of c) = day_header c.
Proof.
  intros Hreg Hv. unfold DaySection_heading, dayHeader.
  rewrite split_at_separator by (apply DateKey_of_no_T; exact Hv).
  cbn [nth]. rewrite parse_DateKey_of by exact Hv.
  unfold index. cbn [nth minus Date_of_values].
  pose proof (valid_day_bounds c Hv) as (Hy & Hm & Hd).
  destruct (Date_local_fields tz (cd_year c) (cd_month c) (cd_day c))
    as (_ & Hmonth & _); [assumption | lia | assumption | assumption |].
  unfold getMonth_of, getDay, WeekDay. rewrite Hmonth.
  rewrite Date_local_day by (assumption || lia).
  unfold day_header, weekday_of, template_at. cbn [String_of_value].
  replace ((days_from_civil (cd_year c) (cd_month c) (cd_day c) + 4) mod 7 <? 0)
    with false
    by (symmetry; apply Z.ltb_ge; apply Z.mod_pos_bound; lia).
  replace (cd_month c - 1 <? 0) with false by (symmetry; apply Z.ltb_ge; lia).
  reflexivity.
Qed.

Lemma DaySection_heading_names_day_witness :
  DaySection_heading Europe_Warsaw (DateKey_of (Samples.day 2026 3 9))
  = "Poniedziałek, 9 marca"%string.
Proof.
  rewrite (DaySection_heading_names_day Europe_Warsaw (Samples.day 2026 3 9)).
  - vm_compute. reflexivity.
  - exact Europe_Warsaw_regular.
  - reflexivity.
Defined.

(** ** Event Grouper *)

Lemma events_on_nonempty (k : string) (events : list ScheduleEvent) :
  events_on k events <> [] <-> exists e, In e events /\ toDateKey (start e) = k.
Proof.
  unfold events_on. split.
  - intros Hne. destruct (List.filter _ events) as [|e b] eqn:Hf; [congruence |].
    assert (Hin : In e (List.filter (fun e => String.eqb (toDateKey (start e)) k) events))
      by (rewrite Hf; left; reflexivity).
    apply filter_In in Hin. destruct Hin as [He Hk].
    exists e. split; [exact He | apply String.eqb_eq; exact Hk].
  - intros (e & He & Hk) Hnil.
    assert (Hin : In e (List.filter (fun e => String.eqb (toDateKey (start e)) k) events)).
    { apply filter_In. split; [exact He | apply String.eqb_eq; exact Hk]. }
    rewrite Hnil in Hin. destruct Hin.
Qed.

(** X12. The buckets of [groupByDay] are exactly the non-empty day lists:
    the bucket under a DateKey holds the events with that key, all of them,
    in the order in which they arrived, and no bucket is empty. *)
Theorem groupByDay_bucket_of_day (localeCompare : string -> string -> Z)
    (events : list ScheduleEvent) (k : string) (bucket : list ScheduleEvent) :
  In (k, bucket) (groupByDay localeCompare events)
  <-> bucket = List.filter (fun e => String.eqb (toDateKey (start e)) k) events
      /\ bucket <> [].
Proof.
  rewrite groupByDay_In. fold (events_on k events). split.
  - intros [Hex ->]. split; [reflexivity | apply events_on_nonempty; exact Hex].
  - intros [-> Hne]. split; [apply events_on_nonempty; exact Hne | reflexivity].
Qed.

(** X13. Every event lands in one bucket only, the one of its day: the
    DateKeys of the buckets are pairwise distinct, an event is in the bucket
    under its own DateKey and in no bucket under another key. *)
Theorem groupByDay_one_bucket_per_event (localeCompare : string -> string -> Z)
    (events : list ScheduleEvent) :
  NoDup (map fst (groupByDay localeCompare events))
  /\ forall e, In e events ->
       (exists bucket,
          In (toDateKey (start e), bucket) (groupByDay localeCompare events)
          /\ In e bucket)
       /\ (forall k bucket,
             In (k, bucket) (groupByDay localeCompare events) ->
             In e bucket -> k = toDateKey (start e)).
Proof.
  split; [apply groupByDay_keys_NoDup |].
  intros e He. split; [apply groupByDay_covers; exact He |].
  intros k bucket Hin Heb. apply groupByDay_In in Hin. destruct Hin as [_ ->].
  unfold events_on in Heb. apply filter_In in Heb. destruct Heb as [_ Hk].
  apply String.eqb_eq in Hk. symmetry. exact Hk.
Qed.

Lemma Permutation_concat_lists {A : Type} (l1 l2 : list (list A)) :
  Permutation l1 l2 -> Permutation (concat l1) (concat l2).
Proof.
  induction 1 as [| x l l' _ IH | x y l | l l' l'' _ IH1 _ IH2]; simpl.
  - apply perm_nil.
  - apply Permutation_app_head. exact IH.
  - rewrite !app_assoc. apply Permutation_app_tail. apply Permutation_app_comm.
  - eapply perm_trans; eassumption.
Qed.

Lemma events_on_cons (k : string) (e : ScheduleEvent) (l : list ScheduleEvent) :
  events_on k (e :: l)
  = if String.eqb (toDateKey (start e)) k then e :: events_on k l else events_on k l.
Proof. reflexivity. Qed.

Lemma concat_events_on_other (e : ScheduleEvent) (l : list ScheduleEvent)
    (S : list string) :
  ~ In (toDateKey (start e)) S ->
  map (fun k => events_on k (e :: l)) S = map (fun k => events_on k l) S.
Proof.
  intros Hno. apply map_ext_in. intros k Hk. rewrite events_on_cons.
  destruct (String.eqb (toDateKey (start e)) k) eqn:Heq; [| reflexivity].
  apply String.eqb_eq in Heq. subst k. contradiction.
Qed.

Lemma concat_events_on (l : list ScheduleEvent) (S : list string) :
  List.NoDup S -> (forall e, In e l -> In (toDateKey (start e)) S) ->
  Permutation (concat (map (fun k => events_on k l) S)) l.
Proof.
  intros HS. induction l as [|e l IH]; intros Hcover.
  - replace (concat (map (fun k => events_on k []) S)) with (@nil ScheduleEvent).
    + apply perm_nil.
    + clear. induction S as [|k S IH]; simpl; [reflexivity | exact IH].
  - assert (Hin : In (toDateKey (start e)) S) by (apply Hcover; left; reflexivity).
    apply in_split in Hin. destruct Hin as (S1 & S2 & HS12).
    assert (Hno : ~ In (toDateKey (start e)) S1 /\ ~ In (toDateKey (start e)) S2).
    { rewrite HS12 in HS. apply List.NoDup_remove_2 in HS.
      rewrite in_app_iff in HS. tauto. }
    destruct Hno as [Hno1 Hno2].
    specialize (IH (fun e' He' => Hcover e' (or_intror He'))).
    rewrite HS12 in *. rewrite map_app, concat_app in *. cbn [map concat] in *.
    rewrite !concat_events_on_other by assumption.
    rewrite events_on_cons, String_eqb_refl.
    rewrite <- app_comm_cons. symmetry. apply Permutation_cons_app.
    symmetry. exact IH.
Qed.

(** X14. Grouping loses no event and repeats none: the buckets laid end to
    end are a rearrangement of the events given. *)
Theorem groupByDay_keeps_all_events (localeCompare : string -> string -> Z)
    (events : list ScheduleEvent) :
  Permutation (concat (map snd (groupByDay localeCompare events))) events.
Proof.
  rewrite groupByDay_sorts_buckets.
  eapply perm_trans.
  { apply Permutation_concat_lists, Permutation_map, sort_perm. }
  unfold buckets_of. rewrite map_map. cbn [snd].
  apply concat_events_on.
  - apply NoDup_ListNoDup, Set_from_NoDup.
  - intros e He. apply Set_from_In, in_map_iff. exists e. auto.
Qed.

Lemma groupByDay_empty_iff (localeCompare : string -> string -> Z)
    (events : list ScheduleEvent) :
  groupByDay localeCompare events = [] <-> events = [].
Proof.
  split; [| intros ->; reflexivity].
  intros Hnil. destruct events as [|e es]; [reflexivity |].
  destruct (groupByDay_covers localeCompare (e :: es) e (or_introl eq_refl))
    as (bucket & Hin & _).
  rewrite Hnil in Hin. destruct Hin.
Qed.

(** X15. Where the host's comparison puts DateKeys in the order of their
    code units, the buckets of events that start on valid days come in
    chronological order. *)
Theorem groupByDay_days_in_order (localeCompare : string -> string -> Z)
    (events : list ScheduleEvent) :
  consistent localeCompare ->
  (forall a b, valid_day a = true -> valid_day b = true ->
     localeCompare (DateKey_of a) (DateKey_of b) <= 0 ->
     SortCompare (DateKey_of a) (DateKey_of b) <= 0) ->
  well_dated events ->
  StronglySorted
    (fun p q => exists a b, valid_day a = true /\ valid_day b = true
                  /\ fst p = DateKey_of a /\ fst q = DateKey_of b /\ day_le a b)
    (groupByDay localeCompare events).
Proof. apply groupByDay_chronological. Qed.

Lemma groupByDay_days_in_order_witness :
  StronglySorted
    (fun p q => exists a b, valid_day a = true /\ valid_day b = true
                  /\ fst p = DateKey_of a /\ fst q = DateKey_of b /\ day_le a b)
    (groupByDay SortCompare Samples.week20_events).
Proof.
  apply (groupByDay_days_in_order SortCompare Samples.week20_events).
  - exact SortCompare_consistent.
  - intros a b _ _ Hle. exact Hle.
  - apply week20_events_dated.
Defined.

(** ** Navigation State *)

(** X16. The week survives a restart: what [changeWeek] writes to storage,
    [getInitialWeek] reads back as the same week, whatever the time of the
    next start. *)
Theorem week_survives_restart (tz : TimeZone) (next : Z) (st : state) (now : Date) :
  getInitialWeek tz (localStorage (changeWeek next st)) now
  = week (changeWeek next st).
Proof. apply (mount_after_changeWeek tz next st now). Qed.

(** X17. [changeWeek] leaves no trace of the past: the state after two
    calls is the state after the last one, so a repeated call changes
    nothing; and of the storage it writes its own key only. *)
Theorem changeWeek_last_call_wins (n1 n2 : Z) (st : state) :
  changeWeek n2 (changeWeek n1 st) = changeWeek n2 st
  /\ changeWeek n1 (changeWeek n1 st) = changeWeek n1 st
  /\ forall k, k <> WEEK_KEY ->
       localStorage (changeWeek n1 st) !! k = localStorage st !! k.
Proof.
  assert (Hlast : forall a b, changeWeek b (changeWeek a st) = changeWeek b st).
  { intros a b. unfold changeWeek. cbn [localStorage week]. f_equal.
    apply insert_insert_eq. }
  split; [apply Hlast | split; [apply Hlast |]].
  intros k Hk. unfold changeWeek. cbn [localStorage].
  apply lookup_insert_ne. congruence.
Qed.

(** X18. Paging moves by one week where the navigator enables it and stays
    put where it does not: with [canGoNext] the next week is [week + 1] and
    going back returns to [week]; without it [onNext] keeps the week; and
    the same for [canGoPrev] and [onPrev]. *)
Theorem paging_by_one_week (tz : TimeZone) (st : state) :
  reachable tz st ->
  (canGoNext st = true ->
     week (onNext st) = week st + 1 /\ week (onPrev (onNext st)) = week st)
  /\ (canGoNext st = false -> week (onNext st) = week st)
  /\ (canGoPrev st = true ->
      week (onPrev st) = week st - 1 /\ week (onNext (onPrev st)) = week st)
  /\ (canGoPrev st = false -> week (onPrev st) = week st).
Proof.
  intros Hreach. apply reachable_range in Hreach.
  unfold canGoNext, canGoPrev, onNext, onPrev, changeWeek, MIN_WEEK, MAX_WEEK in *.
  cbn [week].
  split; [intros Hgo; apply Z.ltb_lt in Hgo; lia |].
  split; [intros Hgo; apply Z.ltb_ge in Hgo; lia |].
  split; [intros Hgo; apply Z.ltb_lt in Hgo; lia |].
  intros Hgo. apply Z.ltb_ge in Hgo. lia.
Qed.

Lemma paging_by_one_week_witness :
  week (onNext (mount Europe_Warsaw ∅ 0)) = week (mount Europe_Warsaw ∅ 0) + 1
  /\ week (onPrev (mount Europe_Warsaw ∅ 0)) = week (mount Europe_Warsaw ∅ 0).
Proof.
  destruct (paging_by_one_week Europe_Warsaw (mount Europe_Warsaw ∅ 0)
              (reach_mount Europe_Warsaw ∅ 0)) as (Hnext & _ & _ & Hprev).
  split; [apply Hnext | apply Hprev]; vm_compute; reflexivity.
Defined.

Lemma String_of_week_pad2 :
  forallb (fun n => String.eqb (String_of_Z n) (pad2 n)) (map Z.of_nat (seq 19 36))
  = true.
Proof. vm_compute. reflexivity. Qed.

Lemma skip_ws_digit (d : Z) (s : string) :
  0 <= d <= 9 -> skip_ws (String (digit_char d) s) = String (digit_char d) s.
Proof.
  intros Hd. pose proof (code_digit_char d Hd) as Hc.
  assert (H1 : is_ws1 (digit_char d) = false).
  { unfold is_ws1. rewrite Hc.
    apply orb_false_intro; [apply andb_false_intro2 | ]; lia. }
  assert (H2 : forall c2, is_ws2 (digit_char d) c2 = false).
  { intros c2. unfold is_ws2. rewrite Hc. apply andb_false_intro1. lia. }
  assert (H3 : forall c2 c3, is_ws3 (digit_char d) c2 c3 = false).
  { intros c2 c3. unfold is_ws3. rewrite Hc.
    replace (48 + d =? 225) with false by lia.
    replace (48 + d =? 226) with false by lia.
    replace (48 + d =? 227) with false by lia.
    replace (48 + d =? 239) with false by lia.
    reflexivity. }
  cbn [skip_ws]. rewrite H1. destruct s as [|c2 r2]; [reflexivity |].
  rewrite H2. destruct r2 as [|c3 r3]; [reflexivity |].
  rewrite H3. reflexivity.
Qed.

Lemma parseInt_pad2_prefix (n : Z) (rest : string) :
  0 <= n <= 99 ->
  match rest with
  | String c _ => digit_of c = None
  | EmptyString => True
  end ->
  parseInt (pad2 n ++ rest) = Num n.
Proof.
  intros Hn Hrest. unfold parseInt, pad2.
  rewrite !append_String, append_Empty.
  rewrite skip_ws_digit by lia_div.
  unfold read_sign. rewrite code_digit_char by lia_div.
  replace (48 + n / 10 =? 45) with false by lia_div.
  replace (48 + n / 10 =? 43) with false by lia_div.
  cbn [read_digits]. rewrite !digit_of_digit_char by lia_div.
  assert (Hstop : read_digits (10 * (10 * 0 + n / 10) + n mod 10) 2 rest
                  = (10 * (10 * 0 + n / 10) + n mod 10, 2%nat, rest)).
  { destruct rest as [|c r]; [reflexivity |]. cbn [read_digits].
    rewrite Hrest. reflexivity. }
  rewrite Hstop. f_equal. lia_div.
Qed.

(** X19. The stored text is read by its leading integer only: a text that
    starts with a week of the range, followed by anything that is not a
    digit, restores that week. *)
Theorem getInitialWeek_reads_leading_week (tz : TimeZone)
    (storage : gmap string string) (now : Date) (n : Z) (rest : string) :
  MIN_WEEK <= n <= MAX_WEEK ->
  match rest with
  | String c _ => digit_of c = None
  | EmptyString => True
  end ->
  storage !! WEEK_KEY = Some (String_of_Z n ++ rest)%string ->
  getInitialWeek tz storage now = n.
Proof.
  intros Hn Hrest Hst.
  apply (getInitialWeek_restores tz storage now (String_of_Z n ++ rest)%string n);
    [exact Hst | | exact Hn].
  unfold MIN_WEEK, MAX_WEEK in Hn.
  pose proof String_of_week_pad2 as Hall. rewrite forallb_forall in Hall.
  assert (Hin : In n (map Z.of_nat (seq 19 36))).
  { apply in_map_iff. exists (Z.to_nat n). split; [lia |]. apply in_seq. lia. }
  specialize (Hall n Hin). apply String.eqb_eq in Hall. rewrite Hall.
  apply parseInt_pad2_prefix; [lia | exact Hrest].
Qed.

Lemma getInitialWeek_reads_leading_week_witness :
  getInitialWeek Europe_Warsaw {[ WEEK_KEY := "25.9 weeks"%string ]} 0 = 25.
Proof.
  apply (getInitialWeek_reads_leading_week Europe_Warsaw
           {[ WEEK_KEY := "25.9 weeks"%string ]} 0 25 ".9 weeks"%string).
  - unfold MIN_WEEK, MAX_WEEK. lia.
  - reflexivity.
  - apply lookup_singleton_eq.
Defined.

(** ** Class cards *)

Lemma ClassCard_meta_of_tag (e : ScheduleEvent) (c : ClassType) :
  type e = Some (ClassType_tag c) ->
  Value <$> (CLASS_TYPE_META !! ClassType_tag c)
  = Some (ClassCard_meta CLASS_TYPE_META DEFAULT_TYPE_META e)
  /\ ClassCard_meta CLASS_TYPE_META DEFAULT_TYPE_META e <> Value DEFAULT_TYPE_META.
Proof.
  intros Hty. unfold ClassCard_meta. rewrite Hty.
  destruct c; vm_compute; split; (reflexivity || discriminate).
Qed.

(** X20. Each of the six tags of [ClassType] resolves to its own entry of
    [CLASS_TYPE_META], never to the default, and no two tags share a label:
    the badge of a card tells the kind of class. *)
Theorem ClassCard_meta_of_ClassType (e : ScheduleEvent) (c : ClassType) :
  type e = Some (ClassType_tag c) ->
  Value <$> (CLASS_TYPE_META !! ClassType_tag c)
  = Some (ClassCard_meta CLASS_TYPE_META DEFAULT_TYPE_META e)
  /\ ClassCard_meta CLASS_TYPE_META DEFAULT_TYPE_META e <> Value DEFAULT_TYPE_META
  /\ forall (e' : ScheduleEvent) (c' : ClassType),
       type e' = Some (ClassType_tag c') ->
       badge (ClassCard_meta CLASS_TYPE_META DEFAULT_TYPE_META e')
       = badge (ClassCard_meta CLASS_TYPE_META DEFAULT_TYPE_META e) ->
       c' = c.
Proof.
  intros Hty. destruct (ClassCard_meta_of_tag e c Hty) as [Hentry Hdefault].
  split; [exact Hentry | split; [exact Hdefault |]].
  intros e' c' Hty' Hbadge.
  destruct (ClassCard_meta_of_tag e' c' Hty') as [Hentry' _].
  assert (Hsome : (Value <$> (CLASS_TYPE_META !! ClassType_tag c')) ≫= badge
                  = (Value <$> (CLASS_TYPE_META !! ClassType_tag c)) ≫= badge)
    by (rewrite Hentry, Hentry'; simpl; exact Hbadge).
  clear - Hsome. destruct c, c'; try reflexivity; vm_compute in Hsome; discriminate.
Qed.

Lemma ClassCard_meta_of_ClassType_witness :
  Value <$> (CLASS_TYPE_META !! "lab"%string)
  = Some (ClassCard_meta CLASS_TYPE_META DEFAULT_TYPE_META
            (Samples.with_type (Some "lab"%string) Samples.monday_lab))
  /\ ClassCard_meta CLASS_TYPE_META DEFAULT_TYPE_META
       (Samples.with_type (Some "lab"%string) Samples.monday_lab)
     <> Value DEFAULT_TYPE_META.
Proof.
  destruct (ClassCard_meta_of_ClassType
              (Samples.with_type (Some "lab"%string) Samples.monday_lab) lab eq_refl)
    as (Hentry & Hdefault & _).
  split; [exact Hentry | exact Hdefault].
Defined.

Example ClassCard_lab_label :
  badge (ClassCard_meta CLASS_TYPE_META DEFAULT_TYPE_META
           (Samples.with_type (Some "lab"%string) Samples.monday_lab))
  = Some "Laboratorium"%string.
Proof. vm_compute. reflexivity. Qed.

Example formatTime_counts_code_units :
  formatTime "2026-03-09Tąbcdef" = Some "ąbcde"%string.
Proof. vm_compute. reflexivity. Qed.

Lemma formatTime_None_iff (s : string) :
  formatTime s = None <-> has_char "T" s = false.
Proof.
  unfold formatTime. split.
  - intros Hnone. destruct (has_char "T" s) eqn:Hs; [| reflexivity].
    destruct (split_with_separator "T" s Hs) as (a & b & t & Heq).
    rewrite Heq in Hnone. discriminate.
  - intros Hs. rewrite split_without_separator by exact Hs. reflexivity.
Qed.

(** X21. A [ClassCard] fails to render exactly when the start or the end of
    its event holds no 'T'; nothing else about the event can make it fail. *)
Theorem ClassCard_fails_without_time (e : ScheduleEvent) :
  ClassCard e = None
  <-> has_char "T" (start e) = false \/ has_char "T" (end_ e) = false.
Proof.
  rewrite <- !formatTime_None_iff. unfold ClassCard.
  destruct (formatTime (start e)) as [s|]; [| tauto].
  destruct (formatTime (end_ e)) as [t|]; [| tauto].
  split; [discriminate | intros [H | H]; discriminate].
Qed.

(** ** Requests *)

Lemma append_cancel_l (a x y : string) : (a ++ x = a ++ y)%string -> x = y.
Proof.
  induction a as [|c a IH]; intros H; [exact H |].
  rewrite !append_String in H. injection H as H. apply IH. exact H.
Qed.

Lemma String_of_Z_inj (m n : Z) : String_of_Z m = String_of_Z n -> m = n.
Proof.
  unfold String_of_Z. intros H. apply DecimalZ.to_int_inj.
  assert (Hnn : forall z, Z.to_int z <> Decimal.Pos Decimal.Nil
                          /\ Z.to_int z <> Decimal.Neg Decimal.Nil).
  { intros [|p|p]; simpl; split; try discriminate;
      intros Heq; injection Heq as Heq;
      apply (DecimalPos.Unsigned.to_uint_nonnil p Heq). }
  destruct (Hnn m) as [Hm1 Hm2]. destruct (Hnn n) as [Hn1 Hn2].
  pose proof (NilZero.isi (Z.to_int m) Hm1 Hm2) as Im.
  pose proof (NilZero.isi (Z.to_int n) Hn1 Hn2) as In'.
  rewrite H in Im. congruence.
Qed.

(** X22. Requests for different weeks go to different addresses: the
    address [fetchSchedule] builds determines the week. *)
Theorem fetchSchedule_url_determines_week (VITE_API_URL : option string)
    (w1 w2 : Z) :
  w1 <> w2 ->
  fetchSchedule_url VITE_API_URL w1 <> fetchSchedule_url VITE_API_URL w2.
Proof.
  unfold fetchSchedule_url. intros Hne H. apply Hne.
  repeat apply append_cancel_l in H. apply String_of_Z_inj. exact H.
Qed.

Lemma fetchSchedule_url_determines_week_witness :
  fetchSchedule_url None 19 <> fetchSchedule_url None 20.
Proof. apply (fetchSchedule_url_determines_week None 19 20). lia. Defined.

Example fetchSchedule_url_week_20 :
  fetchSchedule_url None 20
  = "http://127.0.0.1:6565/schedule?group_id=343167655&week=20"%string.
Proof. reflexivity. Qed.

(** ** What [App] shows *)

(** X23. Once the events are there ([isLoading] and [isError] both false),
    [App] shows either the empty-week notice alone, when there is no event,
    or one [DaySection] per bucket of [groupByDay] and no notice; while
    loading or after an error it shows neither. *)
Theorem App_main_shows (localeCompare : string -> string -> Z) (q : query) :
  (isLoading q = false -> isError q = false ->
     (data q = None \/ data q = Some [] ->
        App_main localeCompare q = [EmptyWeek])
     /\ (forall events, data q = Some events -> events <> [] ->
           App_main localeCompare q
           = map (fun day => DaySection (fst day) (snd day))
               (groupByDay localeCompare events)
           /\ App_main localeCompare q <> []))
  /\ (isLoading q = true \/ isError q = true ->
      forall x, In x (App_main localeCompare q) ->
        x = SkeletonWeek \/ exists message, x = ErrorState message).
Proof.
  unfold App_main. split.
  - intros -> ->. cbn [negb andb app]. split.
    + intros [-> | ->]; reflexivity.
    + intros events -> Hne.
      pose proof (proj1 (groupByDay_empty_iff localeCompare events)) as Hnil.
      destruct (groupByDay localeCompare events) as [|day days];
        [specialize (Hnil eq_refl); contradiction |].
      split; [reflexivity | discriminate].
  - intros Hbusy x Hx.
    assert (Hidle : negb (isLoading q) && negb (isError q) = false)
      by (destruct Hbusy as [-> | ->]; [reflexivity | apply andb_false_r]).
    rewrite Hidle in Hx. cbn [andb] in Hx. rewrite !app_nil_r in Hx.
    apply in_app_or in Hx. destruct Hx as [Hx | Hx].
    + destruct (isLoading q); [| destruct Hx].
      destruct Hx as [<- | []]. left. reflexivity.
    + destruct (isError q); [| destruct Hx].
      destruct Hx as [<- | []]. right. eexists. reflexivity.
Qed.

Lemma App_main_shows_witness :
  App_main SortCompare
    {| data := Some []; isLoading := false; isError := false; error := None |}
  = [EmptyWeek].
Proof.
  apply (proj1 (App_main_shows SortCompare
                  {| data := Some []; isLoading := false; isError := false;
                     error := None |}));
    [reflexivity | reflexivity | right; reflexivity].
Defined.
